(** * k8s-ecr-renew: the namespace reconciliation handler of [main.go]

    The program watches the namespaces of a cluster; for every namespace
    event it fetches a registry authorization token, writes it into the
    secret [ecrsecret] of the namespace and makes sure the service account
    [default] lists that secret among its image pull secrets.

    The Go code talks to two external services (the registry's
    authorization API and the cluster API server).  Both are modelled by an
    explicit [World]: the objects stored in the cluster, a script of the
    answers the outside gives, and the trace of the calls and log lines the
    program has produced so far.  The Go functions become functions in a
    small state-and-panic monad over that world.

    The cluster client is the one [NewKubeClient] has built; how it is
    built, the syntax of the command line and the transport of the informer
    are outside the model. *)

From Stdlib Require Import ZArith Ascii String.
From stdpp Require Import gmap strings list fin_maps.

Local Open Scope string_scope.
Local Open Scope list_scope.

(** ** Strings and [fmt.Sprintf] *)

(** The double quote character, byte 34. *)
Definition dquote : ascii := "034"%char.
Definition q : string := String dquote EmptyString.

(** [fmt.Sprintf] restricted to string operands.  The verbs [%s] and [%v]
    print the next operand as it is, [%%] prints a percent sign, any other
    verb is reported the way the fmt package reports a verb it cannot apply
    to a string, a missing operand is reported as [%!s(MISSING)] and
    operands that are left over as [%!(EXTRA ...)].  Flags, widths and the
    verbs q, x, X, T and p are not modelled. *)
Fixpoint extraOperands (args : list string) : string :=
  match args with
  | [] => ""
  | [a] => "string=" ++ a
  | a :: rest => "string=" ++ a ++ ", " ++ extraOperands rest
  end.

Fixpoint Sprintf (format : string) (args : list string) : string :=
  match format with
  | EmptyString =>
      match args with
      | [] => ""
      | _ => "%!(EXTRA " ++ extraOperands args ++ ")"
      end
  | String c rest =>
      if Ascii.eqb c "%"%char then
        match rest with
        | EmptyString => "%!(NOVERB)"
        | String v rest' =>
            if Ascii.eqb v "%"%char then String "%"%char (Sprintf rest' args)
            else
              match args with
              | [] => "%!" ++ String v "(MISSING)" ++ Sprintf rest' []
              | a :: args' =>
                  if Ascii.eqb v "s"%char || Ascii.eqb v "v"%char
                  then a ++ Sprintf rest' args'
                  else "%!" ++ String v "(string=" ++ a ++ ")" ++ Sprintf rest' args'
              end
        end
      else String c (Sprintf rest args)
  end.

(** [const dockerJSONTemplate] of main.go, line 25. *)
Definition dockerJSONTemplate : string :=
  "{" ++ q ++ "auths" ++ q ++ ":{" ++ q ++ "%s" ++ q ++ ":{" ++ q ++ "auth" ++ q
      ++ ":" ++ q ++ "%s" ++ q ++ "," ++ q ++ "email" ++ q ++ ":" ++ q ++ "none"
      ++ q ++ "}}}".

(** ** Data model *)

(** Go [error] values met by the program. *)
Inductive error : Type :=
  | AwsError (code : string) (message : string)   (* an awserr.Error *)
  | StatusError (reason : string)                 (* an API server status *)
  | RequestError (message : string)               (* transport, client side *)
  | Errorf (format : string) (cause : error).     (* fmt.Errorf(format, err) *)

(** Reasons of the API server's statuses. *)
Definition NotFound : error := StatusError "NotFound".
Definition AlreadyExists : error := StatusError "AlreadyExists".
Definition Forbidden : error := StatusError "Forbidden".

(** Error codes of the registry API named by [getECRSecret]. *)
Definition ErrCodeServerException : string := "ServerException".
Definition ErrCodeInvalidParameterException : string := "InvalidParameterException".

(** [type config struct] *)
Record config : Type := Config {
  Kubecfg : string;
  KubeMasterURL : string;
  AWSAccessKeyID : string;
  AWSSecretAccessKey : string;
  AWSRegion : string;
  RefreshInterval : Z
}.

(** The part of [v1.Namespace] the handler reads. *)
Record Namespace : Type := {
  nsName : string;
  nsDeletionTimestamp : option Z
}.

Definition GetName (ns : Namespace) : string := nsName ns.
Definition GetDeletionTimestamp (ns : Namespace) : option Z := nsDeletionTimestamp ns.

(** [v1.Secret]: name, type and the data map. *)
Record Secret : Type := {
  secretObjName : string;
  secretType : string;
  secretData : gmap string string
}.

(** [v1.LocalObjectReference] *)
Record LocalObjectReference : Type := { Name : string }.

(** The part of [v1.ServiceAccount] the handler reads and writes. *)
Record ServiceAccount : Type := {
  saName : string;
  ImagePullSecrets : list LocalObjectReference
}.

(** The zero values [&v1.Secret{}] and [&v1.ServiceAccount{}]. *)
Definition emptySecret : Secret :=
  {| secretObjName := ""; secretType := ""; secretData := ∅ |}.
Definition emptyServiceAccount : ServiceAccount :=
  {| saName := ""; ImagePullSecrets := [] |}.

(** [ecr.AuthorizationData] and [ecr.GetAuthorizationTokenOutput]; the
    fields are pointers in Go, hence options. *)
Record AuthorizationData : Type := {
  AuthorizationToken : option string;
  ProxyEndpoint : option string
}.

Record GetAuthorizationTokenOutput : Type := {
  AuthorizationDataList : list AuthorizationData
}.

(** What one call of [GetAuthorizationToken] answers: the output pointer
    and the error, both as the Go call returns them. *)
Record EcrReply : Type := {
  replyOutput : option GetAuthorizationTokenOutput;
  replyErr : option error
}.

(** ** The world *)

Inductive Level : Type := LInfo | LError | LStdout.

(** The calls the program makes, each with the error it answered, and the
    lines it logs. *)
Inductive Event : Type :=
  | EvLog (lvl : Level) (format : string)
  | EvNewSession
  | EvGetAuthorizationToken (region : string)
  | EvSecretGet (ns name : string) (err : option error)
  | EvSecretUpdate (ns : string) (s : Secret) (err : option error)
  | EvSecretCreate (ns : string) (s : Secret) (err : option error)
  | EvServiceAccountGet (ns name : string) (err : option error)
  | EvServiceAccountUpdate (ns : string) (sa : ServiceAccount) (err : option error).

(** [secrets] and [serviceAccounts] are the objects of the cluster, keyed by
    namespace and object name.  [sessionErr] is the error of
    [session.NewSession], if any.  [ecrReplies] scripts the answers of the
    registry, one per call; [faults] scripts the API server, one entry per
    request that reaches it: [Some e] makes the request fail with [e] and
    change nothing, [None] lets it through.  [trace] holds the events so
    far, the latest first. *)
Record World : Type := {
  secrets : gmap (string * string) Secret;
  serviceAccounts : gmap (string * string) (list LocalObjectReference);
  sessionErr : option error;
  ecrReplies : list EcrReply;
  faults : list (option error);
  trace : list Event
}.

(** ** The monad: state passing with panics *)

Inductive Outcome (A : Type) : Type :=
  | Ret (a : A)
  | Panic (msg : string).
Arguments Ret {A} a.
Arguments Panic {A} msg.

Definition M (A : Type) : Type := World -> Outcome A * World.

#[global] Instance M_ret : MRet M := fun A a w => (Ret a, w).

#[global] Instance M_bind : MBind M := fun A B k m w =>
  match m w with
  | (Ret a, w') => k a w'
  | (Panic msg, w') => (Panic msg, w')
  end.

Definition panic {A} (msg : string) : M A := fun w => (Panic msg, w).

Definition emit (ev : Event) : M unit :=
  fun w =>
    (Ret tt,
     {| secrets := secrets w; serviceAccounts := serviceAccounts w;
        sessionErr := sessionErr w; ecrReplies := ecrReplies w;
        faults := faults w; trace := ev :: trace w |}).

(** Takes the next entry of the API server's script; an exhausted script
    lets every request through. *)
Definition nextFault : M (option error) :=
  fun w =>
    match faults w with
    | [] => (Ret None, w)
    | f :: rest =>
        (Ret f,
         {| secrets := secrets w; serviceAccounts := serviceAccounts w;
            sessionErr := sessionErr w; ecrReplies := ecrReplies w;
            faults := rest; trace := trace w |})
    end.

(** Takes the next answer of the registry; when the script is exhausted the
    registry cannot be reached: an empty output and a request error. *)
Definition unreachable : EcrReply :=
  {| replyOutput := Some {| AuthorizationDataList := [] |};
     replyErr := Some (RequestError "RequestError: send request failed") |}.

Definition nextEcrReply : M EcrReply :=
  fun w =>
    match ecrReplies w with
    | [] => (Ret unreachable, w)
    | r :: rest =>
        (Ret r,
         {| secrets := secrets w; serviceAccounts := serviceAccounts w;
            sessionErr := sessionErr w; ecrReplies := rest;
            faults := faults w; trace := trace w |})
    end.

Definition getWorld : M World := fun w => (Ret w, w).

Definition setSecrets (m : gmap (string * string) Secret) : M unit :=
  fun w =>
    (Ret tt,
     {| secrets := m; serviceAccounts := serviceAccounts w;
        sessionErr := sessionErr w; ecrReplies := ecrReplies w;
        faults := faults w; trace := trace w |}).

Definition setServiceAccounts (m : gmap (string * string) (list LocalObjectReference)) : M unit :=
  fun w =>
    (Ret tt,
     {| secrets := secrets w; serviceAccounts := m;
        sessionErr := sessionErr w; ecrReplies := ecrReplies w;
        faults := faults w; trace := trace w |}).

(** ** Logging *)

(** [logrus.Infof], [logrus.Errorf], [logrus.Info] and [fmt.Println]: the
    trace keeps the level and the format string of the line. *)
Definition logInfof (format : string) : M unit := emit (EvLog LInfo format).
Definition logErrorf (format : string) : M unit := emit (EvLog LError format).
Definition println (what : string) : M unit := emit (EvLog LStdout what).

(** ** The registry client *)

(** [session.Must(session.NewSession())]: [Must] panics on an error. *)
Definition newSessionMust : M unit :=
  emit EvNewSession;;
  w ← getWorld;
  match sessionErr w with
  | Some _ => panic "session.Must: NewSession failed"
  | None => mret tt
  end.

(** [ecrClient.GetAuthorizationToken(input)] *)
Definition GetAuthorizationToken (region : string) : M EcrReply :=
  emit (EvGetAuthorizationToken region);;
  nextEcrReply.

(** Dereferencing a pointer and indexing a slice at 0, with Go's run-time
    panics. *)
Definition deref {A} (p : option A) : M A :=
  match p with
  | Some a => mret a
  | None => panic "runtime error: invalid memory address or nil pointer dereference"
  end.

Definition index0 {A} (l : list A) : M A :=
  match l with
  | a :: _ => mret a
  | [] => panic "runtime error: index out of range"
  end.

(** ** The cluster client

    The typed clients of client-go allocate the result object before they
    send the request, so a failed [Get] returns the zero object together
    with the error; a request for an object with an empty name is refused
    by the client itself and never reaches the server. *)

Definition emptyNameErr : error := RequestError "resource name may not be empty".

(** [client.Secrets(ns).Get(name)] *)
Definition Secrets_Get (ns name : string) : M (Secret * option error) :=
  fault ← nextFault;
  w ← getWorld;
  let r := match fault with
           | Some e => (emptySecret, Some e)
           | None => match secrets w !! (ns, name) with
                     | Some s => (s, None)
                     | None => (emptySecret, Some NotFound)
                     end
           end in
  emit (EvSecretGet ns name r.2);;
  mret r.

(** [client.Secrets(ns).Update(secret)] *)
Definition Secrets_Update (ns : string) (s : Secret) : M (Secret * option error) :=
  if String.eqb (secretObjName s) "" then
    emit (EvSecretUpdate ns s (Some emptyNameErr));;
    mret (emptySecret, Some emptyNameErr)
  else
    fault ← nextFault;
    w ← getWorld;
    match fault with
    | Some e => emit (EvSecretUpdate ns s (Some e));; mret (emptySecret, Some e)
    | None =>
        match secrets w !! (ns, secretObjName s) with
        | Some _ =>
            setSecrets (<[(ns, secretObjName s) := s]> (secrets w));;
            emit (EvSecretUpdate ns s None);;
            mret (s, None)
        | None => emit (EvSecretUpdate ns s (Some NotFound));; mret (emptySecret, Some NotFound)
        end
    end.

(** [client.Secrets(ns).Create(secret)] *)
Definition Secrets_Create (ns : string) (s : Secret) : M (Secret * option error) :=
  fault ← nextFault;
  w ← getWorld;
  match fault with
  | Some e => emit (EvSecretCreate ns s (Some e));; mret (emptySecret, Some e)
  | None =>
      if String.eqb (secretObjName s) "" then
        emit (EvSecretCreate ns s (Some (StatusError "Invalid")));;
        mret (emptySecret, Some (StatusError "Invalid"))
      else
        match secrets w !! (ns, secretObjName s) with
        | Some _ =>
            emit (EvSecretCreate ns s (Some AlreadyExists));;
            mret (emptySecret, Some AlreadyExists)
        | None =>
            setSecrets (<[(ns, secretObjName s) := s]> (secrets w));;
            emit (EvSecretCreate ns s None);;
            mret (s, None)
        end
  end.

(** [client.ServiceAccounts(ns).Get(name)] *)
Definition ServiceAccounts_Get (ns name : string) : M (ServiceAccount * option error) :=
  fault ← nextFault;
  w ← getWorld;
  let r := match fault with
           | Some e => (emptyServiceAccount, Some e)
           | None => match serviceAccounts w !! (ns, name) with
                     | Some refs => ({| saName := name; ImagePullSecrets := refs |}, None)
                     | None => (emptyServiceAccount, Some NotFound)
                     end
           end in
  emit (EvServiceAccountGet ns name r.2);;
  mret r.

(** [client.ServiceAccounts(ns).Update(serviceAccount)] *)
Definition ServiceAccounts_Update (ns : string) (sa : ServiceAccount)
  : M (ServiceAccount * option error) :=
  if String.eqb (saName sa) "" then
    emit (EvServiceAccountUpdate ns sa (Some emptyNameErr));;
    mret (emptyServiceAccount, Some emptyNameErr)
  else
    fault ← nextFault;
    w ← getWorld;
    match fault with
    | Some e => emit (EvServiceAccountUpdate ns sa (Some e));; mret (emptyServiceAccount, Some e)
    | None =>
        match serviceAccounts w !! (ns, saName sa) with
        | Some _ =>
            setServiceAccounts (<[(ns, saName sa) := ImagePullSecrets sa]> (serviceAccounts w));;
            emit (EvServiceAccountUpdate ns sa None);;
            mret (sa, None)
        | None =>
            emit (EvServiceAccountUpdate ns sa (Some NotFound));;
            mret (emptyServiceAccount, Some NotFound)
        end
    end.

(** ** [getECRSecret] (main.go, lines 88-118) *)

Definition getECRSecret (region : string) (secretName : string) : M Secret :=
  logInfof "Fetching ECR token for region: %s";;
  newSessionMust;;
  reply ← GetAuthorizationToken region;
  match replyErr reply with
  | Some (AwsError code message) =>
      if String.eqb code ErrCodeServerException then println ErrCodeServerException
      else if String.eqb code ErrCodeInvalidParameterException
           then println ErrCodeInvalidParameterException
           else println message
  | _ => mret tt
  end;;
  result ← deref (replyOutput reply);
  data ← index0 (AuthorizationDataList result);
  token ← deref (AuthorizationToken data);
  data' ← index0 (AuthorizationDataList result);
  endpoint ← deref (ProxyEndpoint data');
  mret {| secretObjName := secretName;
          secretType := "kubernetes.io/dockerconfigjson";
          secretData := {[ ".dockerconfigjson" := Sprintf dockerJSONTemplate [endpoint; token] ]} |}.

(** ** The handler closure of [main] (main.go, lines 152-202) *)

Definition secretName : string := "ecrsecret".

(** The loop of lines 181-187: [iter] is what is left of the range over
    the slice, [i] the index of its head in [refs]. *)
Fixpoint rangeImagePullSecrets (name : string) (refs : list LocalObjectReference)
    (i : nat) (iter : list LocalObjectReference) : list LocalObjectReference * bool :=
  match iter with
  | [] => (refs, false)
  | imagePullSecret :: iter' =>
      if String.eqb (Name imagePullSecret) name
      then (<[i := {| Name := name |}]> refs, true)
      else rangeImagePullSecrets name refs (S i) iter'
  end.

(** Lines 180-192: the scan and the append. *)
Definition ensureImagePullSecret (name : string) (refs : list LocalObjectReference)
  : list LocalObjectReference :=
  let '(refs', imagePullSecretFound) := rangeImagePullSecrets name refs 0 refs in
  if negb imagePullSecretFound then refs' ++ [{| Name := name |}] else refs'.

(** [err != defaultServiceErr] on two [error] interfaces that come from two
    different calls: equal only when both are nil. *)
Definition errNeq (e1 e2 : option error) : bool :=
  match e1, e2 with
  | None, None => false
  | _, _ => true
  end.

(** Lines 174-199; [err] is the error of the read of the secret. *)
Definition identityStep (ns : Namespace) (newSecret : Secret) (err : option error)
  : M (option error) :=
  '(defaultServiceAcccont, defaultServiceErr) ← ServiceAccounts_Get (GetName ns) "default";
  (if errNeq err defaultServiceErr
   then logErrorf "Could not get ServiceAccounts! %v" else mret tt);;
  let defaultServiceAcccont' :=
    {| saName := saName defaultServiceAcccont;
       ImagePullSecrets :=
         ensureImagePullSecret (secretObjName newSecret)
           (ImagePullSecrets defaultServiceAcccont) |} in
  '(_, err') ← ServiceAccounts_Update (GetName ns) defaultServiceAcccont';
  match err' with
  | Some e => mret (Some (Errorf "Could update ServiceAccount! %v" e))
  | None => mret None
  end.

Definition handler (cfg : config) (ns : Namespace) : M (option error) :=
  match GetDeletionTimestamp ns with
  | None =>
      newSecret ← getECRSecret (AWSRegion cfg) secretName;
      '(_, err) ← Secrets_Get (GetName ns) secretName;
      match err with
      | None =>
          logInfof "Found existing secret in ns: %s, updating...";;
          '(_, updateErr) ← Secrets_Update (GetName ns) newSecret;
          match updateErr with
          | Some _ => logErrorf "Error creating secret in ns %s: %s"
          | None => mret tt
          end;;
          identityStep ns newSecret err
      | Some _ =>
          logInfof "Secret does not exist in ns: %s, creating...";;
          '(_, createErr) ← Secrets_Create (GetName ns) newSecret;
          match createErr with
          | Some _ =>
              logErrorf "Error creating secret in ns %s: ";;
              mret err
          | None => identityStep ns newSecret err
          end
      end
  | Some _ => mret None
  end.

(** ** [WatchNamespaces] and [main] *)

(** The events the informer hands to [AddFunc] and [UpdateFunc]. *)
Inductive NamespaceEvent : Type :=
  | Added (obj : Namespace)
  | Updated (old obj : Namespace).

Definition eventObject (ev : NamespaceEvent) : Namespace :=
  match ev with
  | Added obj => obj
  | Updated _ obj => obj
  end.

(** [AddFunc] and [UpdateFunc] of lines 129-138: run the handler, log its
    error. *)
Definition onEvent (handler : Namespace -> M (option error)) (ev : NamespaceEvent) : M unit :=
  err ← handler (eventObject ev);
  match err with
  | Some _ => emit (EvLog LInfo "%v")
  | None => mret tt
  end.

(** The informer delivers the events one after the other; a panic of the
    handler ends the process. *)
Fixpoint dispatch (handler : Namespace -> M (option error)) (events : list NamespaceEvent)
  : M unit :=
  match events with
  | [] => mret tt
  | ev :: rest => onEvent handler ev;; dispatch handler rest
  end.

(** The flags of the command line as the flag package has parsed them. *)
Record Flags : Type := {
  stringFlags : gmap string string;
  intFlags : gmap string Z
}.

(** [flag.String(name, value, usage)] and [flag.Int(name, value, usage)]
    after [flag.Parse]: the value given on the command line, else the
    default [value]. *)
Definition flagString (fl : Flags) (name value : string) : string :=
  default value (stringFlags fl !! name).

Definition flagInt (fl : Flags) (name : string) (value : Z) : Z :=
  default value (intFlags fl !! name).

(** [parse] (lines 37-50) *)
Definition parse (fl : Flags) : config :=
  let kubecfg := flagString fl "kubecfg" "" in
  let kubeMasterURL := flagString fl "kube-master-url" "" in
  let awsAccessKeyID := flagString fl "aws_access_key_id" "" in
  let awsSecretAccessKey := flagString fl "aws_secret_access_key" "" in
  let awsRegion := flagString fl "aws_region" "" in
  let refreshInterval := flagInt fl "refresh-interval" 60 in
  Config kubecfg kubeMasterURL awsAccessKeyID awsSecretAccessKey awsRegion refreshInterval.

(** [time.Duration] counts nanoseconds in an int64. *)
Definition Nanosecond : Z := 1.
Definition Second : Z := 1000000000 * Nanosecond.
Definition Minute : Z := 60 * Second.

(** The arguments [main] passes to [WatchNamespaces] (line 152): the
    resync period and the handler closure over the parsed configuration.
    The client the closure captures is built on lines 147-151 by
    [NewKubeClient]; it is taken as built, and is no part of this record. *)
Record WatchArgs : Type := {
  resyncPeriod : Z;
  watchHandler : Namespace -> M (option error)
}.

Definition main (fl : Flags) : WatchArgs :=
  let cfg := parse fl in
  {| resyncPeriod := 1 * Minute;
     watchHandler := handler cfg |}.

(** [WatchNamespaces] run on the events the informer delivers. *)
Definition WatchNamespaces (args : WatchArgs) (events : list NamespaceEvent) : M unit :=
  dispatch (watchHandler args) events.

(** * Properties *)

(** ** The primitives in closed form

    Every request to the API server takes one entry of the script and adds
    one event; the lemmas below give the answer and the world after the
    request without looking at the shape of the script. *)

Definition peekFault (w : World) : option error :=
  match faults w with
  | f :: _ => f
  | [] => None
  end.

Definition logged (ev : Event) (w : World) : World :=
  {| secrets := secrets w; serviceAccounts := serviceAccounts w;
     sessionErr := sessionErr w; ecrReplies := ecrReplies w;
     faults := faults w; trace := ev :: trace w |}.

Definition answered (w : World) : World :=
  {| secrets := secrets w; serviceAccounts := serviceAccounts w;
     sessionErr := sessionErr w; ecrReplies := ecrReplies w;
     faults := tail (faults w); trace := trace w |}.

Definition withSecrets (m : gmap (string * string) Secret) (w : World) : World :=
  {| secrets := m; serviceAccounts := serviceAccounts w;
     sessionErr := sessionErr w; ecrReplies := ecrReplies w;
     faults := faults w; trace := trace w |}.

Definition withServiceAccounts (m : gmap (string * string) (list LocalObjectReference))
    (w : World) : World :=
  {| secrets := secrets w; serviceAccounts := m;
     sessionErr := sessionErr w; ecrReplies := ecrReplies w;
     faults := faults w; trace := trace w |}.

Definition secretGetResult (ns name : string) (w : World) : Secret * option error :=
  match peekFault w with
  | Some e => (emptySecret, Some e)
  | None => match secrets w !! (ns, name) with
            | Some s => (s, None)
            | None => (emptySecret, Some NotFound)
            end
  end.

Definition secretUpdateErr (ns : string) (s : Secret) (w : World) : option error :=
  if String.eqb (secretObjName s) "" then Some emptyNameErr
  else match peekFault w with
       | Some e => Some e
       | None => match secrets w !! (ns, secretObjName s) with
                 | Some _ => None
                 | None => Some NotFound
                 end
       end.

Definition secretCreateErr (ns : string) (s : Secret) (w : World) : option error :=
  match peekFault w with
  | Some e => Some e
  | None => if String.eqb (secretObjName s) "" then Some (StatusError "Invalid")
            else match secrets w !! (ns, secretObjName s) with
                 | Some _ => Some AlreadyExists
                 | None => None
                 end
  end.

(** The world after a write of secret [s] that answered [err]. *)
Definition secretWritten (ns : string) (s : Secret) (err : option error) (w : World) : World :=
  match err with
  | None => withSecrets (<[(ns, secretObjName s) := s]> (secrets w)) w
  | Some _ => w
  end.

Definition saGetResult (ns name : string) (w : World) : ServiceAccount * option error :=
  match peekFault w with
  | Some e => (emptyServiceAccount, Some e)
  | None => match serviceAccounts w !! (ns, name) with
            | Some refs => ({| saName := name; ImagePullSecrets := refs |}, None)
            | None => (emptyServiceAccount, Some NotFound)
            end
  end.

Definition saUpdateErr (ns : string) (sa : ServiceAccount) (w : World) : option error :=
  if String.eqb (saName sa) "" then Some emptyNameErr
  else match peekFault w with
       | Some e => Some e
       | None => match serviceAccounts w !! (ns, saName sa) with
                 | Some _ => None
                 | None => Some NotFound
                 end
       end.

Definition saWritten (ns : string) (sa : ServiceAccount) (err : option error) (w : World)
  : World :=
  match err with
  | None => withServiceAccounts (<[(ns, saName sa) := ImagePullSecrets sa]> (serviceAccounts w)) w
  | Some _ => w
  end.

(** A request with an empty name does not reach the server. *)
Definition sent (name : string) (w : World) : World :=
  if String.eqb name "" then w else answered w.

(** The secret [getECRSecret] builds from an endpoint and a token. *)
Definition dockerConfigJSON (endpoint token : string) : string :=
  Sprintf dockerJSONTemplate [endpoint; token].

Definition dockerConfigSecret (name endpoint token : string) : Secret :=
  {| secretObjName := name;
     secretType := "kubernetes.io/dockerconfigjson";
     secretData := {[ ".dockerconfigjson" := dockerConfigJSON endpoint token ]} |}.

(** The events of the registry client and the log lines. *)
Definition registryEvent (ev : Event) : Prop :=
  match ev with
  | EvLog _ _ | EvNewSession | EvGetAuthorizationToken _ => True
  | _ => False
  end.

(** The events of the identity step: requests for service accounts. *)
Definition identityEvent (ev : Event) : Prop :=
  match ev with
  | EvServiceAccountGet _ _ _ | EvServiceAccountUpdate _ _ _ => True
  | _ => False
  end.

Definition fetchedWorld (replies : list EcrReply) (evs : list Event) (w : World) : World :=
  {| secrets := secrets w; serviceAccounts := serviceAccounts w;
     sessionErr := sessionErr w; ecrReplies := replies;
     faults := faults w; trace := evs ++ trace w |}.

(** What the handler returns after the update of the service account
    answered [ue] (lines 196-199). *)
Definition updateResult (ue : option error) : option error :=
  match ue with
  | Some e => Some (Errorf "Could update ServiceAccount! %v" e)
  | None => None
  end.

(** [runs m w out evs w']: started in [w], [m] ends with [out] in [w'] and
    [evs] are the events of the run, the latest first. *)
Definition runs {A} (m : M A) (w : World) (out : Outcome A) (evs : list Event) (w' : World)
  : Prop :=
  m w = (out, w') /\ trace w' = evs ++ trace w.

(** The number of references with the given name. *)
Fixpoint countNamed (name : string) (refs : list LocalObjectReference) : nat :=
  match refs with
  | [] => 0
  | r :: rest => (if String.eqb (Name r) name then 1 else 0) + countNamed name rest
  end.

(** ** The runs of the handler, by their events

    The events of the identity step, the latest first: the read of the
    default service account, the log line of line 178 when the comparison
    of line 177 holds, and the update.  [err] is the error of the read of
    the secret, [gerr] the one of the read of the account. *)
Definition identityEvents (n : string) (err gerr : option error) (sa : ServiceAccount)
    (ue : option error) : list Event :=
  EvServiceAccountUpdate n sa ue
  :: (if errNeq err gerr then [EvLog LError "Could not get ServiceAccounts! %v"] else [])
  ++ [EvServiceAccountGet n "default" gerr].

(** The identity step in a world [w]: the read fails and the update is
    sent for the zero object, which the client refuses; or the read gives
    the stored references and the update is sent for the scanned list. *)
Inductive IdentityRun (n : string) (w : World) (err : option error)
  : Outcome (option error) -> list Event -> Prop :=
  | IdentityReadFailed e :
      IdentityRun n w err (Ret (updateResult (Some emptyNameErr)))
        (identityEvents n err (Some e)
           {| saName := ""; ImagePullSecrets := [{| Name := secretName |}] |}
           (Some emptyNameErr))
  | IdentityRead refs ue :
      serviceAccounts w !! (n, "default") = Some refs ->
      IdentityRun n w err (Ret (updateResult ue))
        (identityEvents n err None
           {| saName := "default";
              ImagePullSecrets := ensureImagePullSecret secretName refs |} ue).

(** The log line after a failed update of the secret (line 163). *)
Definition updateLog (ue : option error) : list Event :=
  match ue with
  | Some _ => [EvLog LError "Error creating secret in ns %s: %s"]
  | None => []
  end.

(** The four ways a run of the handler on a live namespace [n] goes: the
    fetch panics; the read of the secret fails and so does the create; the
    read fails and the create succeeds; the read succeeds and the update
    is sent.  [fev] are the events of the fetch. *)
Inductive HandlerRun (n : string) (w : World)
  : Outcome (option error) -> list Event -> Prop :=
  | RunPanic msg fev :
      Forall registryEvent fev ->
      HandlerRun n w (Panic msg) fev
  | RunCreateFailed s e ce fev :
      Forall registryEvent fev ->
      HandlerRun n w (Ret (Some e))
        ([EvLog LError "Error creating secret in ns %s: ";
          EvSecretCreate n s (Some ce);
          EvLog LInfo "Secret does not exist in ns: %s, creating...";
          EvSecretGet n secretName (Some e)] ++ fev)
  | RunCreated s e out idev fev :
      Forall registryEvent fev ->
      IdentityRun n w (Some e) out idev ->
      HandlerRun n w out
        (idev ++ [EvSecretCreate n s None;
                  EvLog LInfo "Secret does not exist in ns: %s, creating...";
                  EvSecretGet n secretName (Some e)] ++ fev)
  | RunUpdated s ue out idev fev :
      Forall registryEvent fev ->
      IdentityRun n w None out idev ->
      HandlerRun n w out
        (idev ++ updateLog ue
              ++ [EvSecretUpdate n s ue;
                  EvLog LInfo "Found existing secret in ns: %s, updating...";
                  EvSecretGet n secretName None] ++ fev).

(** ** Decoding the payload

    The spec asks that decoding the payload gives the endpoint and the
    token back; the program has no decoder.  This one follows the spec's
    words: it reads a JSON document of exactly the shape of the template,
    its two strings as JSON string literals (a literal ends at the first
    double quote that no backslash escapes; a backslash starts an escape;
    control characters are not allowed).  Escapes by code point ([\u]) are
    refused. *)

Definition backslash : ascii := "092"%char.

Definition unescape (c : ascii) : option ascii :=
  if Ascii.eqb c dquote then Some dquote
  else if Ascii.eqb c backslash then Some backslash
  else if Ascii.eqb c "/"%char then Some "/"%char
  else if Ascii.eqb c "b"%char then Some "008"%char
  else if Ascii.eqb c "f"%char then Some "012"%char
  else if Ascii.eqb c "n"%char then Some "010"%char
  else if Ascii.eqb c "r"%char then Some "013"%char
  else if Ascii.eqb c "t"%char then Some "009"%char
  else None.

(** Reads a string literal whose opening quote has been read; gives the
    string and what follows the closing quote. *)
Fixpoint readJSONString (s : string) : option (string * string) :=
  match s with
  | EmptyString => None
  | String c rest =>
      if Ascii.eqb c dquote then Some (EmptyString, rest)
      else if Ascii.eqb c backslash then
        match rest with
        | EmptyString => None
        | String e rest' =>
            match unescape e, readJSONString rest' with
            | Some d, Some (body, after) => Some (String d body, after)
            | _, _ => None
            end
        end
      else if Nat.ltb (nat_of_ascii c) 32 then None
      else match readJSONString rest with
           | Some (body, after) => Some (String c body, after)
           | None => None
           end
  end.

(** Reads the literal text [lit] at the head of [s]. *)
Fixpoint expect (lit s : string) : option string :=
  match lit with
  | EmptyString => Some s
  | String c lit' =>
      match s with
      | EmptyString => None
      | String d s' => if Ascii.eqb c d then expect lit' s' else None
      end
  end.

Definition decodeDockerJSON (payload : string) : option (string * string) :=
  s1 ← expect ("{" ++ q ++ "auths" ++ q ++ ":{" ++ q)%string payload;
  '(endpoint, s2) ← readJSONString s1;
  s3 ← expect (":{" ++ q ++ "auth" ++ q ++ ":" ++ q)%string s2;
  '(token, s4) ← readJSONString s3;
  s5 ← expect ("," ++ q ++ "email" ++ q ++ ":" ++ q ++ "none" ++ q ++ "}}}")%string s4;
  match s5 with
  | EmptyString => Some (endpoint, token)
  | _ => None
  end.

(** The characters a JSON string literal carries as they are. *)
Definition verbatimChar (c : ascii) : bool :=
  negb (Ascii.eqb c dquote) && negb (Ascii.eqb c backslash)
  && negb (Nat.ltb (nat_of_ascii c) 32).

Fixpoint verbatim (s : string) : bool :=
  match s with
  | EmptyString => true
  | String c rest => verbatimChar c && verbatim rest
  end.

(** ** Example inputs *)

Definition exampleEndpoint : string := "https://123.dkr.ecr.us-east-1.amazonaws.com".
Definition exampleToken : string := "QUJD".

(** A registry that answers with one authorization entry. *)
Definition okReply : EcrReply :=
  {| replyOutput :=
       Some {| AuthorizationDataList :=
                 [{| AuthorizationToken := Some exampleToken;
                     ProxyEndpoint := Some exampleEndpoint |}] |};
     replyErr := None |}.

(** A registry that fails: the SDK returns the empty output and the error. *)
Definition failedReply : EcrReply :=
  {| replyOutput := Some {| AuthorizationDataList := [] |};
     replyErr := Some (AwsError ErrCodeServerException "internal error") |}.

Definition noFlags : Flags := {| stringFlags := ∅; intFlags := ∅ |}.

(** The command line [-aws_region=us-east-1]. *)
Definition exampleFlags : Flags :=
  {| stringFlags := {[ "aws_region" := "us-east-1" ]}; intFlags := ∅ |}.
Definition exampleConfig : config := parse exampleFlags.

Definition liveNamespace : Namespace :=
  {| nsName := "team-a"; nsDeletionTimestamp := None |}.
Definition terminatingNamespace : Namespace :=
  {| nsName := "team-a"; nsDeletionTimestamp := Some 1700000000%Z |}.

(** A cluster without secrets whose namespace team-a has the default
    service account with the references [refs]. *)
Definition exampleWorld (refs : list LocalObjectReference) (replies : list EcrReply)
    (script : list (option error)) : World :=
  {| secrets := ∅;
     serviceAccounts := {[ ("team-a", "default") := refs ]};
     sessionErr := None;
     ecrReplies := replies;
     faults := script;
     trace := [] |}.

Definition exampleSecret : Secret :=
  dockerConfigSecret secretName exampleEndpoint exampleToken.

(** The same cluster after a first reconciliation stored the secret. *)
Definition exampleWorldWithSecret (refs : list LocalObjectReference)
    (replies : list EcrReply) (script : list (option error)) : World :=
  withSecrets {[ ("team-a", "ecrsecret") := exampleSecret ]}
    (exampleWorld refs replies script).

(** The events of a fetch that succeeds, the latest first. *)
Definition fetchEvents : list Event :=
  [EvGetAuthorizationToken "us-east-1"; EvNewSession;
   EvLog LInfo "Fetching ECR token for region: %s"].

(** Two endpoint and token pairs with a double quote in them. *)
Definition splitLate : string * string :=
  (("x" ++ q ++ ":{" ++ q ++ "auth" ++ q ++ ":" ++ q ++ "y")%string, "z").
Definition splitEarly : string * string :=
  ("x", ("y" ++ q ++ ":{" ++ q ++ "auth" ++ q ++ ":" ++ q ++ "z")%string).

(** The command line [-refresh-interval=300]. *)
Definition flags300 : Flags :=
  {| stringFlags := ∅; intFlags := {[ "refresh-interval" := 300%Z ]} |}.


(** ** [NewKubeClient] (main.go, lines 52-86)

    The three calls into client-go are taken from a record: what
    [rest.InClusterConfig], [clientcmd.BuildConfigFromFlags] and
    [kubernetes.NewForConfig] return, value and error as Go returns them.
    The function gives back its log lines, the latest first, and the pair
    it returns. *)
Record KubeLibrary (RestConfig Clientset : Type) : Type := {
  InClusterConfig : option RestConfig * option error;
  BuildConfigFromFlags : string -> string -> option RestConfig * option error;
  NewForConfig : option RestConfig -> option Clientset * option error
}.
Arguments InClusterConfig {RestConfig Clientset} _.
Arguments BuildConfigFromFlags {RestConfig Clientset} _ _ _.
Arguments NewForConfig {RestConfig Clientset} _ _.

Definition NewKubeClient {RestConfig Clientset : Type}
    (lib : KubeLibrary RestConfig Clientset) (kubeCfgFile : string)
  : list Event * (option Clientset * option error) :=
  if Nat.eqb (String.length kubeCfgFile) 0 then
    let log := [EvLog LInfo "Using InCluster k8s config"] in
    let '(cfg, err) := InClusterConfig lib in
    match err with
    | Some e => (log, (None, Some e))
    | None =>
        let '(client, err) := NewForConfig lib cfg in
        match err with
        | Some e => (log, (None, Some e))
        | None => (log, (client, None))
        end
    end
  else
    let log := [EvLog LInfo "Using OutOfCluster k8s config with kubeConfigFile: %s"] in
    let '(cfg, err) := BuildConfigFromFlags lib "" kubeCfgFile in
    match err with
    | Some e => (EvLog LError "Got error trying to create client: " :: log, (None, Some e))
    | None =>
        let '(client, err) := NewForConfig lib cfg in
        match err with
        | Some e => (log, (None, Some e))
        | None => (log, (client, None))
        end
    end.

(** A library in which only the kubeconfig file [/etc/kubeconfig] can be
    read. *)
Definition exampleLibrary : KubeLibrary string string :=
  {| InClusterConfig := (None, Some (RequestError "not running in a cluster"));
     BuildConfigFromFlags := fun masterUrl path =>
       if String.eqb path "/etc/kubeconfig" then (Some path, None)
       else (None, Some (RequestError "no such file"));
     NewForConfig := fun cfg =>
       match cfg with
       | Some c => (Some c, None)
       | None => (None, Some (RequestError "no configuration"))
       end |}.

(** ** The credential of an answer

    The endpoint and the token [getECRSecret] reads from an answer of the
    registry: those of the first entry, when the output, the entry and the
    two strings are there. *)
Definition firstCredential (reply : EcrReply) : option (string * string) :=
  match replyOutput reply with
  | Some out =>
      match AuthorizationDataList out with
      | data :: _ =>
          match AuthorizationToken data, ProxyEndpoint data with
          | Some token, Some endpoint => Some (endpoint, token)
          | _, _ => None
          end
      | [] => None
      end
  | None => None
  end.

(** The answer the next call of the registry gets. *)
Definition nextReply (w : World) : EcrReply :=
  match ecrReplies w with
  | r :: _ => r
  | [] => unreachable
  end.

(** A namespace event is live when its object has no deletion timestamp. *)
Definition liveEvent (ev : NamespaceEvent) : Prop :=
  GetDeletionTimestamp (eventObject ev) = None.

#[global] Instance liveEvent_dec ev : Decision (liveEvent ev).
Proof. unfold liveEvent. apply _. Defined.

(** The events that are calls of the cluster client. *)
Definition clusterRequest (ev : Event) : bool :=
  match ev with
  | EvSecretGet _ _ _ | EvSecretUpdate _ _ _ | EvSecretCreate _ _ _
  | EvServiceAccountGet _ _ _ | EvServiceAccountUpdate _ _ _ => true
  | _ => false
  end.

(** The number of calls of the cluster client among events. *)
Fixpoint countRequests (evs : list Event) : nat :=
  match evs with
  | [] => 0
  | ev :: rest => (if clusterRequest ev then 1 else 0) + countRequests rest
  end.

Lemma nextFault_run w : nextFault w = (Ret (peekFault w), answered w).
Proof. destruct w as [? ? ? ? [|f fs] ?]; reflexivity. Qed.

Lemma Secrets_Get_run ns name w :
  Secrets_Get ns name w =
  (Ret (secretGetResult ns name w),
   logged (EvSecretGet ns name (secretGetResult ns name w).2) (answered w)).
Proof.
  unfold Secrets_Get, mbind, M_bind. rewrite nextFault_run. reflexivity.
Qed.

Lemma Secrets_Update_run ns s w :
  let err := secretUpdateErr ns s w in
  Secrets_Update ns s w =
  (Ret (match err with None => s | Some _ => emptySecret end, err),
   logged (EvSecretUpdate ns s err)
     (secretWritten ns s err (sent (secretObjName s) w))).
Proof.
  unfold Secrets_Update, secretUpdateErr, sent, mbind, M_bind; cbv zeta.
  destruct (String.eqb (secretObjName s) ""); [reflexivity|].
  rewrite nextFault_run. unfold peekFault.
  destruct w as [secs sas se er [|[e|] fs] tr]; cbn [faults secrets getWorld answered];
    try reflexivity; destruct (secs !! (ns, secretObjName s)); reflexivity.
Qed.

Lemma Secrets_Create_run ns s w :
  let err := secretCreateErr ns s w in
  Secrets_Create ns s w =
  (Ret (match err with None => s | Some _ => emptySecret end, err),
   logged (EvSecretCreate ns s err) (secretWritten ns s err (answered w))).
Proof.
  unfold Secrets_Create, secretCreateErr, mbind, M_bind; cbv zeta.
  rewrite nextFault_run. unfold peekFault.
  destruct w as [secs sas se er [|[e|] fs] tr]; cbn [faults secrets getWorld answered];
    try reflexivity; destruct (String.eqb (secretObjName s) ""); try reflexivity;
    destruct (secs !! (ns, secretObjName s)); reflexivity.
Qed.

Lemma ServiceAccounts_Get_run ns name w :
  ServiceAccounts_Get ns name w =
  (Ret (saGetResult ns name w),
   logged (EvServiceAccountGet ns name (saGetResult ns name w).2) (answered w)).
Proof.
  unfold ServiceAccounts_Get, mbind, M_bind. rewrite nextFault_run. reflexivity.
Qed.

Lemma ServiceAccounts_Update_run ns sa w :
  let err := saUpdateErr ns sa w in
  ServiceAccounts_Update ns sa w =
  (Ret (match err with None => sa | Some _ => emptyServiceAccount end, err),
   logged (EvServiceAccountUpdate ns sa err)
     (saWritten ns sa err (sent (saName sa) w))).
Proof.
  unfold ServiceAccounts_Update, saUpdateErr, sent, mbind, M_bind; cbv zeta.
  destruct (String.eqb (saName sa) ""); [reflexivity|].
  rewrite nextFault_run. unfold peekFault.
  destruct w as [secs sas se er [|[e|] fs] tr]; cbn [faults serviceAccounts getWorld answered];
    try reflexivity; destruct (sas !! (ns, saName sa)); reflexivity.
Qed.

Ltac trace_prefix l t :=
  lazymatch l with
  | t => constr:(@nil Event)
  | ?e :: ?l' => let p := trace_prefix l' t in constr:(e :: p)
  end.

Lemma getECRSecret_run region name w :
  exists out replies evs,
    getECRSecret region name w = (out, fetchedWorld replies evs w) /\
    Forall registryEvent evs /\
    match out with
    | Ret s => exists endpoint token, s = dockerConfigSecret name endpoint token
    | Panic _ => True
    end.
Proof.
  destruct w as [secs sas se er fs tr].
  destruct se as [e|]; [|destruct er as [|[out err] rest]];
    [| |destruct err as [[code msg| | |]|];
        [destruct (String.eqb code ErrCodeServerException) eqn:Hc1;
         [|destruct (String.eqb code ErrCodeInvalidParameterException) eqn:Hc2]| | | |];
        destruct out as [[[|[[t|] [e|]] ds]]|]].
  all: cbv beta iota zeta delta
    [getECRSecret newSessionMust GetAuthorizationToken logInfof println emit
     nextEcrReply getWorld panic mbind M_bind mret M_ret fetchedWorld deref index0
     secrets serviceAccounts sessionErr ecrReplies faults trace replyErr replyOutput
     unreachable AuthorizationDataList AuthorizationToken ProxyEndpoint].
  all: rewrite ?Hc1, ?Hc2.
  all: lazymatch goal with
  | |- exists out replies evs, (Ret _, {| trace := ?l |}) = _ /\ _ =>
      let p := trace_prefix l tr in
      exists (Ret (dockerConfigSecret name e t)), rest, p; split; [reflexivity|]; split; [repeat constructor|];
      exists e, t; reflexivity
  | |- exists out replies evs, (Panic ?m, {| ecrReplies := ?r; trace := ?l |}) = _ /\ _ =>
      let p := trace_prefix l tr in
      exists (Panic m), r, p; split; [reflexivity|]; split; [repeat constructor|exact I]
  end.
Qed.

Lemma identityStep_run ns newSecret err w :
  let n := GetName ns in
  let g := saGetResult n "default" w in
  let w1 := logged (EvServiceAccountGet n "default" g.2) (answered w) in
  let w2 := if errNeq err g.2
            then logged (EvLog LError "Could not get ServiceAccounts! %v") w1 else w1 in
  let sa := {| saName := saName g.1;
               ImagePullSecrets :=
                 ensureImagePullSecret (secretObjName newSecret) (ImagePullSecrets g.1) |} in
  let ue := saUpdateErr n sa w2 in
  identityStep ns newSecret err w =
  (Ret (updateResult ue),
   logged (EvServiceAccountUpdate n sa ue) (saWritten n sa ue (sent (saName sa) w2))).
Proof.
  cbv zeta. unfold identityStep, mbind, M_bind.
  rewrite ServiceAccounts_Get_run.
  destruct (saGetResult (GetName ns) "default" w) as [sa gerr].
  cbn [fst snd].
  destruct (errNeq err gerr); cbv beta iota delta [logErrorf emit mret M_ret];
    fold (logged (EvLog LError "Could not get ServiceAccounts! %v")
            (logged (EvServiceAccountGet (GetName ns) "default" gerr) (answered w)));
    rewrite ServiceAccounts_Update_run; cbv zeta;
    match goal with |- context [saUpdateErr ?a ?b ?c] => destruct (saUpdateErr a b c) end;
    reflexivity.
Qed.

Lemma handler_run cfg ns w :
  GetDeletionTimestamp ns = None ->
  handler cfg ns w =
  match getECRSecret (AWSRegion cfg) secretName w with
  | (Panic msg, w1) => (Panic msg, w1)
  | (Ret newSecret, w1) =>
      let n := GetName ns in
      let g := secretGetResult n secretName w1 in
      let w2 := logged (EvSecretGet n secretName g.2) (answered w1) in
      match g.2 with
      | None =>
          let w3 := logged (EvLog LInfo "Found existing secret in ns: %s, updating...") w2 in
          let ue := secretUpdateErr n newSecret w3 in
          let w4 := logged (EvSecretUpdate n newSecret ue)
                      (secretWritten n newSecret ue (sent (secretObjName newSecret) w3)) in
          let w5 := match ue with
                    | Some _ => logged (EvLog LError "Error creating secret in ns %s: %s") w4
                    | None => w4
                    end in
          identityStep ns newSecret None w5
      | Some e =>
          let w3 := logged (EvLog LInfo "Secret does not exist in ns: %s, creating...") w2 in
          let ce := secretCreateErr n newSecret w3 in
          let w4 := logged (EvSecretCreate n newSecret ce)
                      (secretWritten n newSecret ce (answered w3)) in
          match ce with
          | Some _ => (Ret (Some e), logged (EvLog LError "Error creating secret in ns %s: ") w4)
          | None => identityStep ns newSecret (Some e) w4
          end
      end
  end.
Proof.
  intros Hd. unfold handler. rewrite Hd. unfold mbind, M_bind.
  destruct (getECRSecret (AWSRegion cfg) secretName w) as [[newSecret|msg] w1]; [|reflexivity].
  rewrite Secrets_Get_run. cbv zeta.
  destruct (secretGetResult (GetName ns) secretName w1) as [s [e|]]; cbn [fst snd].
  - cbv beta iota delta [logInfof logErrorf emit mret M_ret].
    match goal with |- context [Secrets_Create ?a ?b ?c] =>
      change c with (logged (EvLog LInfo "Secret does not exist in ns: %s, creating...")
                       (logged (EvSecretGet (GetName ns) secretName (Some e)) (answered w1)))
    end.
    rewrite Secrets_Create_run. cbv zeta.
    match goal with |- context [secretCreateErr ?a ?b ?c] => destruct (secretCreateErr a b c) end;
      reflexivity.
  - cbv beta iota delta [logInfof logErrorf emit mret M_ret].
    match goal with |- context [Secrets_Update ?a ?b ?c] =>
      change c with (logged (EvLog LInfo "Found existing secret in ns: %s, updating...")
                       (logged (EvSecretGet (GetName ns) secretName None) (answered w1)))
    end.
    rewrite Secrets_Update_run. cbv zeta.
    match goal with |- context [secretUpdateErr ?a ?b ?c] => destruct (secretUpdateErr a b c) end;
      reflexivity.
Qed.

(** ** The scan of the reference list *)

Lemma named_eq name r : String.eqb (Name r) name = true -> {| Name := name |} = r.
Proof. destruct r as [n]. cbn. intros H%String.eqb_eq. by subst. Qed.

Lemma range_absent name refs i iter :
  countNamed name iter = 0 -> rangeImagePullSecrets name refs i iter = (refs, false).
Proof.
  revert i. induction iter as [|r iter IH]; intros i; cbn; [done|].
  destruct (String.eqb (Name r) name); [done|]. intros H. by apply IH.
Qed.

(** The scan writes at the first index whose entry has the name. *)
Lemma range_present name refs pre iter :
  refs = (pre ++ iter)%list ->
  0 < countNamed name iter ->
  exists i, (length pre <= i)%nat /\
    refs !! i = Some {| Name := name |} /\
    (forall j r, (length pre <= j < i)%nat -> refs !! j = Some r -> Name r <> name) /\
    rangeImagePullSecrets name refs (length pre) iter = (<[i := {| Name := name |}]> refs, true).
Proof.
  revert pre. induction iter as [|r iter IH]; intros pre Hrefs Hc; cbn in *; [lia|].
  destruct (String.eqb (Name r) name) eqn:Hn.
  - exists (length pre). split; [lia|]. split.
    + subst refs. rewrite lookup_app_r by lia. rewrite Nat.sub_diag. cbn.
      by rewrite (named_eq _ _ Hn).
    + split; [intros j r' ?; lia|done].
  - destruct (IH (pre ++ [r])%list) as (i & Hi & Hl & Hfirst & Hr).
    + by rewrite <- app_assoc.
    + exact Hc.
    + rewrite length_app in *. cbn in *. exists i. split; [lia|]. split; [done|]. split.
      * intros j r' Hj Hlk. destruct (decide (j = length pre)) as [->|].
        -- subst refs. rewrite lookup_app_r in Hlk by lia. rewrite Nat.sub_diag in Hlk.
           cbn in Hlk. injection Hlk as <-. intros Heq. apply String.eqb_neq in Hn. done.
        -- apply (Hfirst j r'); [lia|done].
      * replace (S (length pre)) with (length pre + 1)%nat by lia. exact Hr.
Qed.

Lemma ensure_absent name refs :
  countNamed name refs = 0 ->
  ensureImagePullSecret name refs = (refs ++ [{| Name := name |}])%list.
Proof. intros H. unfold ensureImagePullSecret. by rewrite range_absent. Qed.

Lemma ensure_present name refs :
  0 < countNamed name refs -> ensureImagePullSecret name refs = refs.
Proof.
  intros H. unfold ensureImagePullSecret.
  destruct (range_present name refs [] refs eq_refl H) as (i & _ & Hl & _ & Hr).
  cbn in Hr. rewrite Hr. cbn. by apply list_insert_id.
Qed.

Lemma countNamed_app name l1 l2 :
  countNamed name (l1 ++ l2) = (countNamed name l1 + countNamed name l2)%nat.
Proof. induction l1 as [|r l1 IH]; cbn; [done|]. rewrite IH. lia. Qed.

Lemma countNamed_self name : countNamed name [{| Name := name |}] = 1.
Proof. cbn. by rewrite String.eqb_refl. Qed.

(** ** What a run of the handler does to the service accounts *)

Lemma serviceAccounts_logged ev w : serviceAccounts (logged ev w) = serviceAccounts w.
Proof. reflexivity. Qed.

Lemma serviceAccounts_answered w : serviceAccounts (answered w) = serviceAccounts w.
Proof. reflexivity. Qed.

Lemma serviceAccounts_sent name w : serviceAccounts (sent name w) = serviceAccounts w.
Proof. unfold sent. by destruct (String.eqb name ""). Qed.

Lemma serviceAccounts_secretWritten ns s err w :
  serviceAccounts (secretWritten ns s err w) = serviceAccounts w.
Proof. by destruct err. Qed.

Lemma serviceAccounts_fetchedWorld replies evs w :
  serviceAccounts (fetchedWorld replies evs w) = serviceAccounts w.
Proof. reflexivity. Qed.

Lemma serviceAccounts_if (b : bool) w1 w2 :
  serviceAccounts (if b then w1 else w2) =
  if b then serviceAccounts w1 else serviceAccounts w2.
Proof. by destruct b. Qed.

Lemma serviceAccounts_match_err (o : option error) (f : error -> World) w :
  serviceAccounts (match o with Some e => f e | None => w end) =
  match o with Some e => serviceAccounts (f e) | None => serviceAccounts w end.
Proof. by destruct o. Qed.

Create Rewrite HintDb world.
#[local] Hint Rewrite serviceAccounts_logged serviceAccounts_answered serviceAccounts_sent
  serviceAccounts_secretWritten serviceAccounts_fetchedWorld : world.

(** The identity step either leaves the service accounts alone and returns
    an error, or returns nil and has written the scanned list. *)
Lemma identityStep_serviceAccounts ns newSecret err w out w' :
  identityStep ns newSecret err w = (out, w') ->
  (serviceAccounts w' = serviceAccounts w /\ out <> Ret None) \/
  (out = Ret None /\
   exists refs,
     serviceAccounts w !! (GetName ns, "default") = Some refs /\
     serviceAccounts w' =
       <[(GetName ns, "default") :=
           ensureImagePullSecret (secretObjName newSecret) refs]> (serviceAccounts w)).
Proof.
  intros H. rewrite identityStep_run in H. cbv zeta in H. injection H as <- <-.
  unfold saGetResult.
  destruct (peekFault w) as [e|] eqn:Hp;
    [|destruct (serviceAccounts w !! (GetName ns, "default")) as [refs|] eqn:Hl];
    cbn [fst snd saName ImagePullSecrets emptyServiceAccount].
  - left. unfold saUpdateErr. cbn [saName]. change (String.eqb "" "") with true. cbv iota.
    cbn [saWritten updateResult]. split; [|done].
    autorewrite with world. rewrite serviceAccounts_if. by destruct (errNeq _ _).
  - set (w2 := if errNeq err None then _ else _).
    assert (Hw2 : serviceAccounts w2 = serviceAccounts w).
    { unfold w2. rewrite serviceAccounts_if. by destruct (errNeq _ _). }
    unfold saUpdateErr. cbn [saName]. change (String.eqb "default" "") with false. cbv iota.
    destruct (peekFault w2) as [e|].
    { left. cbn [saWritten updateResult]. autorewrite with world. by split. }
    rewrite Hw2, Hl. right. split; [done|]. exists refs. split; [done|].
    cbn [saWritten saName ImagePullSecrets]. cbn [serviceAccounts logged withServiceAccounts].
    by autorewrite with world; rewrite Hw2.
  - left. unfold saUpdateErr. cbn [saName]. change (String.eqb "" "") with true. cbv iota.
    cbn [saWritten updateResult]. split; [|done].
    autorewrite with world. rewrite serviceAccounts_if. by destruct (errNeq _ _).
Qed.

(** Either the service accounts are untouched, or the handler returned nil
    on a live namespace and wrote the scanned list of its default
    account. *)
Lemma handler_serviceAccounts cfg ns w out w' :
  handler cfg ns w = (out, w') ->
  (serviceAccounts w' = serviceAccounts w /\
   (GetDeletionTimestamp ns = None -> out <> Ret None)) \/
  (GetDeletionTimestamp ns = None /\ out = Ret None /\
   exists refs,
     serviceAccounts w !! (GetName ns, "default") = Some refs /\
     serviceAccounts w' =
       <[(GetName ns, "default") := ensureImagePullSecret secretName refs]> (serviceAccounts w)).
Proof.
  intros H.
  destruct (GetDeletionTimestamp ns) as [ts|] eqn:Hd.
  { unfold handler in H. rewrite Hd in H. injection H as <- <-. left. by split. }
  rewrite handler_run in H by done.
  destruct (getECRSecret_run (AWSRegion cfg) secretName w)
    as (fout & replies & fev & Hf & _ & Hs).
  rewrite Hf in H. destruct fout as [newSecret|msg].
  2:{ injection H as <- <-. left. by split. }
  destruct Hs as (endpoint & token & ->). cbv zeta in H.
  destruct (secretGetResult (GetName ns) secretName (fetchedWorld replies fev w)) as [s [e|]];
    cbn [fst snd] in H.
  - destruct (secretCreateErr _ _ _) as [ce|] eqn:Hc in H.
    + injection H as <- <-. left. by autorewrite with world.
    + apply identityStep_serviceAccounts in H. autorewrite with world in H.
      destruct H as [[-> Hne]|(-> & refs & Hl & ->)]; [left; by split|right].
      split; [done|]. split; [done|]. by exists refs.
  - apply identityStep_serviceAccounts in H.
    rewrite serviceAccounts_match_err in H. autorewrite with world in H.
    assert (Heq : forall o : option error,
      match o with Some _ => serviceAccounts w | None => serviceAccounts w end
      = serviceAccounts w) by (by intros []).
    rewrite Heq in H.
    destruct H as [[-> Hne]|(-> & refs & Hl & ->)]; [left; by split|right].
    split; [done|]. split; [done|]. by exists refs.
Qed.

Lemma handler_keeps_reference cfg ns w out w' n refs :
  serviceAccounts w !! (n, "default") = Some refs ->
  0 < countNamed secretName refs ->
  handler cfg ns w = (out, w') ->
  serviceAccounts w' !! (n, "default") = Some refs.
Proof.
  intros Hl Hc H.
  destruct (handler_serviceAccounts _ _ _ _ _ H) as [[-> _]|(_ & _ & refs' & Hl' & ->)];
    [done|].
  destruct (decide (GetName ns = n)) as [<-|Hne].
  - rewrite Hl in Hl'. injection Hl' as <-.
    rewrite ensure_present by done. by rewrite lookup_insert_eq.
  - rewrite lookup_insert_ne; [done|]. intros [=]. done.
Qed.





(** * The claims *)

(** C3: a namespace with a deletion timestamp makes the handler return nil
    at once; the run has no event (no call of the registry, of the secrets
    or of the service accounts, no log line) and the world is the one it
    started in. *)
Theorem C3_terminating_namespace_is_skipped cfg ns w :
  GetDeletionTimestamp ns <> None ->
  runs (handler cfg ns) w (Ret None) [] w.
Proof.
  intros Hd. unfold runs, handler.
  destruct (GetDeletionTimestamp ns); [|done]. by split.
Qed.

Lemma C3_terminating_namespace_is_skipped_witness :
  runs (handler exampleConfig terminatingNamespace)
    (exampleWorld [] [okReply] []) (Ret None) [] (exampleWorld [] [okReply] []).
Proof.
  apply (C3_terminating_namespace_is_skipped exampleConfig terminatingNamespace).
  discriminate.
Defined.




(** The example of the spec: two reconciliations of a namespace whose
    default account refers to other-secret. *)
Example append_only_once :
  let w := exampleWorld [{| Name := "other-secret" |}] [okReply; okReply] [] in
  let w1 := (handler exampleConfig liveNamespace w).2 in
  let w2 := (handler exampleConfig liveNamespace w1).2 in
  serviceAccounts w1 !! ("team-a", "default")
    = Some [{| Name := "other-secret" |}; {| Name := "ecrsecret" |}] /\
  serviceAccounts w2 !! ("team-a", "default")
    = Some [{| Name := "other-secret" |}; {| Name := "ecrsecret" |}].
Proof. vm_compute. by split. Qed.

(** C10: when the reference list of the default service account already
    holds two or more references named ecrsecret, the scan stops at the
    first of them (it writes at the first index whose entry has the name,
    and what it writes is the entry that is there), the list comes out of
    the scan as it went in, and after the run the stored list is still the
    one with every duplicate.  A list with at most one such reference
    comes out of the scan with exactly one: the scan keeps the list free of
    duplicates, it does not remove them. *)
Theorem C10_duplicates_are_left_in_place cfg ns w out w' refs :
  serviceAccounts w !! (GetName ns, "default") = Some refs ->
  2 <= countNamed secretName refs ->
  handler cfg ns w = (out, w') ->
  (exists i,
     refs !! i = Some {| Name := secretName |} /\
     (forall j r, j < i -> refs !! j = Some r -> Name r <> secretName) /\
     rangeImagePullSecrets secretName refs 0 refs
       = (<[i := {| Name := secretName |}]> refs, true)) /\
  ensureImagePullSecret secretName refs = refs /\
  serviceAccounts w' !! (GetName ns, "default") = Some refs /\
  (forall refs', countNamed secretName refs' <= 1 ->
     countNamed secretName (ensureImagePullSecret secretName refs') = 1).
Proof.
  intros Hl Hc H. split; [|split; [|split]].
  - destruct (range_present secretName refs [] refs eq_refl) as (i & _ & Hi & Hfirst & Hr);
      [lia|].
    exists i. split; [done|]. split; [|done].
    intros j r Hj. apply Hfirst. cbn. lia.
  - apply ensure_present. lia.
  - eapply handler_keeps_reference; [exact Hl| |exact H]. lia.
  - intros refs' Hle. destruct (countNamed secretName refs') as [|[|k]] eqn:Hk; [| |lia].
    + rewrite ensure_absent by done. by rewrite countNamed_app, Hk, countNamed_self.
    + rewrite ensure_present by lia. done.
Qed.

Lemma C10_duplicates_are_left_in_place_witness :
  let dup := [{| Name := "ecrsecret" |}; {| Name := "other-secret" |};
              {| Name := "ecrsecret" |}] in
  let w := exampleWorld dup [okReply] [] in
  (exists i,
     dup !! i = Some {| Name := secretName |} /\
     (forall j r, j < i -> dup !! j = Some r -> Name r <> secretName) /\
     rangeImagePullSecrets secretName dup 0 dup
       = (<[i := {| Name := secretName |}]> dup, true)) /\
  ensureImagePullSecret secretName dup = dup /\
  serviceAccounts (handler exampleConfig liveNamespace w).2 !! ("team-a", "default")
    = Some dup /\
  (forall refs', countNamed secretName refs' <= 1 ->
     countNamed secretName (ensureImagePullSecret secretName refs') = 1).
Proof.
  intros dup w.
  apply (C10_duplicates_are_left_in_place exampleConfig liveNamespace w
           (handler exampleConfig liveNamespace w).1
           (handler exampleConfig liveNamespace w).2 dup).
  - reflexivity.
  - vm_compute. lia.
  - apply surjective_pairing.
Defined.

(** C1: when the registry's answer carries an error and, as the SDK returns
    it on a failure, an empty list of authorization data, [getECRSecret]
    gives its caller no error: it indexes the empty list and panics, and
    so does the handler of a live namespace. *)
Theorem C1_fetch_failure_panics region name w reply rest :
  sessionErr w = None ->
  ecrReplies w = reply :: rest ->
  replyErr reply <> None ->
  replyOutput reply = Some {| AuthorizationDataList := [] |} ->
  (exists w', getECRSecret region name w
              = (Panic "runtime error: index out of range", w')) /\
  (forall cfg ns, GetDeletionTimestamp ns = None ->
     exists w', handler cfg ns w = (Panic "runtime error: index out of range", w')).
Proof.
  intros Hs Hr He Ho.
  assert (Hget : forall region name, exists w',
    getECRSecret region name w = (Panic "runtime error: index out of range", w')).
  { clear region name. intros region name.
    destruct w as [secs sas se er fs tr]. cbn in Hs, Hr. subst se er.
    destruct reply as [o err]. cbn in He, Ho. subst o.
    destruct err as [[code msg| | |]|]; [| | | |done];
      [destruct (String.eqb code ErrCodeServerException) eqn:Hc1;
       [|destruct (String.eqb code ErrCodeInvalidParameterException) eqn:Hc2]| | |];
      cbv beta iota zeta delta
        [getECRSecret newSessionMust GetAuthorizationToken logInfof println emit
         nextEcrReply getWorld panic mbind M_bind mret M_ret deref index0
         secrets serviceAccounts sessionErr ecrReplies faults trace replyErr replyOutput
         AuthorizationDataList];
      rewrite ?Hc1, ?Hc2; eexists; reflexivity. }
  split; [apply Hget|].
  intros cfg ns Hd. rewrite handler_run by done.
  destruct (Hget (AWSRegion cfg) secretName) as [w' ->]. by exists w'.
Qed.

Lemma C1_fetch_failure_panics_witness :
  (exists w', getECRSecret "us-east-1" secretName (exampleWorld [] [failedReply] [])
              = (Panic "runtime error: index out of range", w')) /\
  (forall cfg ns, GetDeletionTimestamp ns = None ->
     exists w', handler cfg ns (exampleWorld [] [failedReply] [])
                = (Panic "runtime error: index out of range", w')).
Proof.
  apply (C1_fetch_failure_panics "us-east-1" secretName
           (exampleWorld [] [failedReply] []) failedReply []).
  - reflexivity.
  - reflexivity.
  - discriminate.
  - reflexivity.
Defined.

(** C9: whatever the command line, [main] hands [WatchNamespaces] a resync
    period of one minute; with [-refresh-interval=300] the configuration
    holds 300 and the resync period is the one of the default command
    line. *)
Theorem C9_resync_period_is_hardcoded :
  (forall fl, resyncPeriod (main fl) = 60000000000%Z) /\
  RefreshInterval (parse flags300) = 300%Z /\
  RefreshInterval (parse noFlags) = 60%Z /\
  resyncPeriod (main flags300) = resyncPeriod (main noFlags) /\
  resyncPeriod (main flags300) <> (300 * Second)%Z.
Proof.
  split; [intros fl; reflexivity|].
  split; [reflexivity|]. split; [reflexivity|]. split; [reflexivity|].
  vm_compute. discriminate.
Qed.

(** ** The payload *)

Lemma dockerConfigJSON_bytes endpoint token :
  dockerConfigJSON endpoint token =
  ("{" ++ q ++ "auths" ++ q ++ ":{" ++ q ++ endpoint ++ q ++ ":{" ++ q ++ "auth" ++ q
       ++ ":" ++ q ++ token ++ q ++ "," ++ q ++ "email" ++ q ++ ":" ++ q ++ "none" ++ q
       ++ "}}}")%string.
Proof. reflexivity. Qed.

Lemma append_cons c (s1 s2 : string) :
  (String c s1 ++ s2)%string = String c (s1 ++ s2)%string.
Proof. reflexivity. Qed.

Lemma append_nil (s : string) : ("" ++ s)%string = s.
Proof. reflexivity. Qed.

Lemma expect_app lit s : expect lit (lit ++ s)%string = Some s.
Proof.
  induction lit as [|c lit IH]; [done|].
  rewrite append_cons. cbn [expect]. by rewrite Ascii.eqb_refl.
Qed.

Lemma readJSONString_verbatim s rest :
  verbatim s = true -> readJSONString (s ++ String dquote rest)%string = Some (s, rest).
Proof.
  induction s as [|c s IH].
  - intros _. rewrite append_nil. cbn [readJSONString]. by rewrite Ascii.eqb_refl.
  - rewrite append_cons. cbn [readJSONString verbatim]. unfold verbatimChar. intros H.
    apply andb_prop in H as [H Hs]. apply andb_prop in H as [H Hctl].
    apply andb_prop in H as [Hq Hb].
    apply negb_true_iff in Hq, Hb, Hctl.
    rewrite Hq, Hb, Hctl, (IH Hs). done.
Qed.

Lemma decode_encode endpoint token :
  verbatim endpoint = true -> verbatim token = true ->
  decodeDockerJSON (dockerConfigJSON endpoint token) = Some (endpoint, token).
Proof.
  intros He Ht. unfold decodeDockerJSON.
  change (dockerConfigJSON endpoint token) with
    (("{" ++ q ++ "auths" ++ q ++ ":{" ++ q) ++ (endpoint ++ String dquote
       ((":{" ++ q ++ "auth" ++ q ++ ":" ++ q) ++ (token ++ String dquote
          (("," ++ q ++ "email" ++ q ++ ":" ++ q ++ "none" ++ q ++ "}}}") ++ "")))))%string.
  rewrite expect_app. cbn [mbind option_bind].
  rewrite readJSONString_verbatim by done. cbn [mbind option_bind].
  rewrite expect_app. cbn [mbind option_bind].
  rewrite readJSONString_verbatim by done. cbn [mbind option_bind].
  rewrite expect_app. reflexivity.
Qed.

(** With a session and an answer whose first entry has a token and an
    endpoint, [getECRSecret] returns the secret with their payload, whether
    or not the answer also carries an error. *)
Lemma getECRSecret_ok region name w endpoint token more err rest :
  sessionErr w = None ->
  ecrReplies w =
    {| replyOutput :=
         Some {| AuthorizationDataList :=
                   {| AuthorizationToken := Some token; ProxyEndpoint := Some endpoint |}
                   :: more |};
       replyErr := err |} :: rest ->
  exists w', getECRSecret region name w = (Ret (dockerConfigSecret name endpoint token), w').
Proof.
  intros Hs Hr. destruct w as [secs sas se er fs tr]. cbn in Hs, Hr. subst se er.
  destruct err as [[code msg| | |]|];
    [destruct (String.eqb code ErrCodeServerException) eqn:Hc1;
     [|destruct (String.eqb code ErrCodeInvalidParameterException) eqn:Hc2]| | | |];
    cbv beta iota zeta delta
      [getECRSecret newSessionMust GetAuthorizationToken logInfof println emit
       nextEcrReply getWorld panic mbind M_bind mret M_ret deref index0
       secrets serviceAccounts sessionErr ecrReplies faults trace replyErr replyOutput
       AuthorizationDataList AuthorizationToken ProxyEndpoint dockerConfigSecret
       dockerConfigJSON];
    rewrite ?Hc1, ?Hc2;
    lazymatch goal with
    | |- exists w', (_, ?w1) = _ => exists w1; exact eq_refl
    end.
Qed.

(** C4, amended: for every endpoint and token the payload is, byte for
    byte, the template with the two strings put in, it is what
    [getECRSecret] stores under the key .dockerconfigjson, and for the
    endpoint and token of the spec's example it is the document of the
    example.  Decoding the payload gives the endpoint and the token back
    when neither has a double quote, a backslash or a control character;
    the strings are put in as they are, without escaping. *)
Theorem C4_payload_bytes endpoint token :
  dockerConfigJSON endpoint token =
    ("{" ++ q ++ "auths" ++ q ++ ":{" ++ q ++ endpoint ++ q ++ ":{" ++ q ++ "auth" ++ q
         ++ ":" ++ q ++ token ++ q ++ "," ++ q ++ "email" ++ q ++ ":" ++ q ++ "none" ++ q
         ++ "}}}")%string /\
  dockerConfigJSON exampleEndpoint exampleToken =
    ("{" ++ q ++ "auths" ++ q ++ ":{" ++ q ++ "https://123.dkr.ecr.us-east-1.amazonaws.com"
         ++ q ++ ":{" ++ q ++ "auth" ++ q ++ ":" ++ q ++ "QUJD" ++ q ++ "," ++ q ++ "email"
         ++ q ++ ":" ++ q ++ "none" ++ q ++ "}}}")%string /\
  (forall region name w more err rest,
     sessionErr w = None ->
     ecrReplies w =
       {| replyOutput :=
            Some {| AuthorizationDataList :=
                      {| AuthorizationToken := Some token; ProxyEndpoint := Some endpoint |}
                      :: more |};
          replyErr := err |} :: rest ->
     exists s w',
       getECRSecret region name w = (Ret s, w') /\
       secretData s !! ".dockerconfigjson" = Some (dockerConfigJSON endpoint token)) /\
  (verbatim endpoint = true -> verbatim token = true ->
   decodeDockerJSON (dockerConfigJSON endpoint token) = Some (endpoint, token)).
Proof.
  split; [apply dockerConfigJSON_bytes|]. split; [reflexivity|]. split.
  - intros region name w more err rest Hs Hr.
    destruct (getECRSecret_ok region name w endpoint token more err rest Hs Hr) as [w' Hw].
    exists (dockerConfigSecret name endpoint token), w'. split; [done|].
    cbn [secretData dockerConfigSecret]. apply lookup_singleton_eq.
  - apply decode_encode.
Qed.

Lemma C4_payload_bytes_witness :
  verbatim exampleEndpoint = true /\ verbatim exampleToken = true /\
  decodeDockerJSON (dockerConfigJSON exampleEndpoint exampleToken)
    = Some (exampleEndpoint, exampleToken) /\
  exists s w',
    getECRSecret "us-east-1" secretName (exampleWorld [] [okReply] []) = (Ret s, w') /\
    secretData s !! ".dockerconfigjson"
      = Some (dockerConfigJSON exampleEndpoint exampleToken).
Proof.
  destruct (C4_payload_bytes exampleEndpoint exampleToken) as (_ & _ & Hget & Hdec).
  split; [reflexivity|]. split; [reflexivity|]. split.
  - apply Hdec; reflexivity.
  - apply (Hget "us-east-1" secretName (exampleWorld [] [okReply] []) [] None []);
      reflexivity.
Defined.

(** C4 as stated fails: two different pairs of endpoint and token, with a
    double quote in them, have the same payload, so no decoder gives both
    back; the decoder above refuses the payload. *)
Lemma C4_counterexample :
  dockerConfigJSON splitLate.1 splitLate.2 = dockerConfigJSON splitEarly.1 splitEarly.2 /\
  splitLate <> splitEarly /\
  decodeDockerJSON (dockerConfigJSON splitLate.1 splitLate.2) <> Some splitLate /\
  ~ (exists decode : string -> option (string * string),
       forall endpoint token,
         decode (dockerConfigJSON endpoint token) = Some (endpoint, token)).
Proof.
  assert (Hsame : dockerConfigJSON splitLate.1 splitLate.2
                  = dockerConfigJSON splitEarly.1 splitEarly.2) by (vm_compute; reflexivity).
  assert (Hne : splitLate <> splitEarly) by (vm_compute; discriminate).
  split; [done|]. split; [done|]. split.
  - (vm_compute; discriminate).
  - intros [decode Hdec].
    pose proof (Hdec splitLate.1 splitLate.2) as H1.
    pose proof (Hdec splitEarly.1 splitEarly.2) as H2.
    rewrite Hsame in H1. rewrite H2 in H1. 
    injection H1 as H1a H1b. apply Hne.
    apply injective_projections; done.
Qed.

(** ** The runs of the handler *)

Lemma trace_logged ev w : trace (logged ev w) = ev :: trace w.
Proof. reflexivity. Qed.

Lemma trace_answered w : trace (answered w) = trace w.
Proof. reflexivity. Qed.

Lemma trace_sent name w : trace (sent name w) = trace w.
Proof. unfold sent. by destruct (String.eqb name ""). Qed.

Lemma trace_secretWritten ns s err w : trace (secretWritten ns s err w) = trace w.
Proof. by destruct err. Qed.

Lemma trace_saWritten ns sa err w : trace (saWritten ns sa err w) = trace w.
Proof. by destruct err. Qed.

Lemma trace_fetchedWorld replies evs w : trace (fetchedWorld replies evs w) = evs ++ trace w.
Proof. reflexivity. Qed.

#[local] Hint Rewrite trace_logged trace_answered trace_sent trace_secretWritten
  trace_saWritten trace_fetchedWorld : world.

Lemma identityStep_cases ns err w out w' endpoint token :
  identityStep ns (dockerConfigSecret secretName endpoint token) err w = (out, w') ->
  exists idev,
    IdentityRun (GetName ns) w err out idev /\ trace w' = idev ++ trace w.
Proof.
  intros H. rewrite identityStep_run in H. cbv zeta in H. injection H as <- <-.
  unfold saGetResult.
  destruct (peekFault w) as [e|] eqn:Hp;
    [|destruct (serviceAccounts w !! (GetName ns, "default")) as [refs|] eqn:Hl];
    cbn [fst snd saName ImagePullSecrets emptyServiceAccount secretObjName dockerConfigSecret].
  - eexists. split; [apply (IdentityReadFailed _ _ _ e)|].
    autorewrite with world. unfold identityEvents.
    destruct (errNeq err (Some e)); reflexivity.
  - set (w2 := if errNeq err None then _ else _).
    unfold saUpdateErr. cbn [saName]. change (String.eqb "default" "") with false. cbv iota.
    eexists. split; [apply (IdentityRead _ _ _ refs), Hl|].
    autorewrite with world. unfold identityEvents, w2.
    destruct (errNeq err None); reflexivity.
  - eexists. split; [apply (IdentityReadFailed _ _ _ NotFound)|].
    autorewrite with world. unfold identityEvents.
    destruct (errNeq err (Some NotFound)); reflexivity.
Qed.

Lemma IdentityRun_frame n w1 w2 err out idev :
  serviceAccounts w1 = serviceAccounts w2 ->
  IdentityRun n w1 err out idev -> IdentityRun n w2 err out idev.
Proof.
  intros Hsa [e|refs ue Hl]; [constructor|].
  constructor. by rewrite <- Hsa.
Qed.

(** Every call of the handler on a live namespace adds events to the
    trace, and goes one of the four ways. *)
Lemma handler_events cfg ns w out w' :
  GetDeletionTimestamp ns = None ->
  handler cfg ns w = (out, w') ->
  exists evs, trace w' = evs ++ trace w /\ HandlerRun (GetName ns) w out evs.
Proof.
  intros Hd H.
  rewrite handler_run in H by done.
  destruct (getECRSecret_run (AWSRegion cfg) secretName w)
    as (fout & replies & fev & Hf & Hreg & Hs).
  rewrite Hf in H. destruct fout as [newSecret|msg].
  2:{ injection H as <- <-. exists fev. split; [done|by constructor]. }
  destruct Hs as (endpoint & token & ->). cbv zeta in H.
  destruct (secretGetResult (GetName ns) secretName (fetchedWorld replies fev w)) as [s [e|]];
    cbn [fst snd] in H.
  - destruct (secretCreateErr _ _ _) as [ce|] eqn:Hc in H.
    + injection H as <- <-. autorewrite with world.
      eexists (_ :: _ :: _ :: _ :: fev). split; [reflexivity|].
      by apply (RunCreateFailed _ _ _ _ ce).
    + apply identityStep_cases in H as (idev & Hid & ->). autorewrite with world.
      eexists (idev ++ [_; _; _] ++ fev). split; [by rewrite <- !app_assoc|].
      constructor; [done|].
      eapply IdentityRun_frame; [|exact Hid]. by autorewrite with world.
  - destruct (secretUpdateErr _ _ _) as [ue|] eqn:Hu in H;
      apply identityStep_cases in H as (idev & Hid & ->); autorewrite with world.
    + eexists (idev ++ updateLog (Some ue) ++ [_; _; _] ++ fev).
      split; [by rewrite <- !app_assoc|].
      constructor; [done|].
      eapply IdentityRun_frame; [|exact Hid]. by autorewrite with world.
    + eexists (idev ++ updateLog None ++ [_; _; _] ++ fev).
      split; [by rewrite <- !app_assoc|].
      constructor; [done|].
      eapply IdentityRun_frame; [|exact Hid]. by autorewrite with world.
Qed.

(** Every call of the handler is a run. *)
Lemma handler_runs cfg ns w :
  exists out evs w', runs (handler cfg ns) w out evs w'.
Proof.
  destruct (handler cfg ns w) as [out w'] eqn:H.
  destruct (GetDeletionTimestamp ns) as [ts|] eqn:Hd.
  - unfold handler in H. rewrite Hd in H. injection H as <- <-.
    exists (Ret None), [], w. split; [|done]. unfold handler. by rewrite Hd.
  - destruct (handler_events _ _ _ _ _ Hd H) as (evs & Htr & _).
    by exists out, evs, w'.
Qed.

(** Every run of the handler on a live namespace is one of the four. *)
Lemma handler_cases cfg ns w out evs w' :
  GetDeletionTimestamp ns = None ->
  runs (handler cfg ns) w out evs w' ->
  HandlerRun (GetName ns) w out evs.
Proof.
  intros Hd [H Htr].
  destruct (handler_events _ _ _ _ _ Hd H) as (evs' & Htr' & Hrun).
  rewrite Htr' in Htr. by apply app_inv_tail in Htr as <-.
Qed.

(** Membership in the events of a run, case by case. *)
Ltac split_events H :=
  unfold identityEvents, updateLog in H;
  repeat match type of H with
         | context [if ?b then _ else _] => destruct b
         | context [match ?o with Some _ => _ | None => _ end] => destruct o
         end;
  repeat first [rewrite elem_of_app in H | rewrite elem_of_cons in H
               | rewrite elem_of_nil in H];
  repeat match type of H with
         | _ \/ _ => destruct H as [H|H]
         | False => destruct H
         end;
  try discriminate H.

Lemma not_fetched fev ev :
  Forall registryEvent fev -> ev ∈ fev -> registryEvent ev.
Proof. intros Hreg Hin. rewrite Forall_forall in Hreg. by apply Hreg. Qed.

(** C7, amended: on a live namespace, when the update of the secret fails
    the identity step is still run, its update of the service account is
    the last event of the run and the answer to that update alone decides
    the error the handler returns.  When the create of the secret fails
    the handler returns at once: no request for a service account is made
    and the error returned is the one of the read of the secret. *)
Theorem C7_update_failure_goes_on_create_failure_returns cfg ns w out evs w' :
  GetDeletionTimestamp ns = None ->
  runs (handler cfg ns) w out evs w' ->
  (forall s e, EvSecretUpdate (GetName ns) s (Some e) ∈ evs ->
     exists sa ue gerr rest,
       evs = EvServiceAccountUpdate (GetName ns) sa ue :: rest /\
       EvServiceAccountGet (GetName ns) "default" gerr ∈ rest /\
       out = Ret (updateResult ue)) /\
  (forall s e, EvSecretCreate (GetName ns) s (Some e) ∈ evs ->
     Forall (fun ev => ~ identityEvent ev) evs /\
     exists ge, EvSecretGet (GetName ns) secretName (Some ge) ∈ evs /\
                out = Ret (Some ge)).
Proof.
  intros Hd Hrun. apply handler_cases in Hrun; [|done].
  split; intros s0 e0 Hin.
  - destruct Hrun as [msg fev Hreg|s e ce fev Hreg|s e out idev fev Hreg Hid
                     |s ue out idev fev Hreg Hid].
    + by apply (not_fetched _ _ Hreg) in Hin.
    + split_events Hin. by apply (not_fetched _ _ Hreg) in Hin.
    + destruct Hid as [e'|refs ue' Hl]; split_events Hin;
        by apply (not_fetched _ _ Hreg) in Hin.
    + destruct Hid as [e'|refs ue' Hl]; unfold identityEvents;
        eexists _, _, _, _; (split; [reflexivity|]); (split; [|reflexivity]);
        cbn [errNeq app];
        repeat (rewrite elem_of_cons; first [left; reflexivity|right]).
  - destruct Hrun as [msg fev Hreg|s e ce fev Hreg|s e out idev fev Hreg Hid
                     |s ue out idev fev Hreg Hid].
    + by apply (not_fetched _ _ Hreg) in Hin.
    + split.
      * cbn [app]. repeat (apply Forall_cons; split; [cbn; tauto|]).
        eapply Forall_impl; [exact Hreg|]. intros []; cbn; tauto.
      * exists e. split; [|done]. cbn [app].
        repeat (rewrite elem_of_cons; first [left; reflexivity|right]).
    + destruct Hid as [e'|refs ue' Hl]; split_events Hin;
        by apply (not_fetched _ _ Hreg) in Hin.
    + destruct Hid as [e'|refs ue' Hl]; split_events Hin;
        by apply (not_fetched _ _ Hreg) in Hin.
Qed.

Lemma C7_update_failure_goes_on_create_failure_returns_witness :
  let w := exampleWorldWithSecret [] [okReply] [None; Some Forbidden] in
  let r := handler exampleConfig liveNamespace w in
  EvSecretUpdate "team-a" exampleSecret (Some Forbidden) ∈ trace r.2 /\
  exists sa ue gerr rest,
    trace r.2 = EvServiceAccountUpdate "team-a" sa ue :: rest /\
    EvServiceAccountGet "team-a" "default" gerr ∈ rest /\
    r.1 = Ret (updateResult ue).
Proof.
  intros w r.
  assert (Hin : EvSecretUpdate "team-a" exampleSecret (Some Forbidden) ∈ trace r.2).
  { vm_compute. repeat constructor. }
  split; [exact Hin|].
  destruct (C7_update_failure_goes_on_create_failure_returns
              exampleConfig liveNamespace w r.1 (trace r.2) r.2) as [Hupd _].
  - reflexivity.
  - split; [apply surjective_pairing|vm_compute; reflexivity].
  - exact (Hupd exampleSecret Forbidden Hin).
Defined.

(** C7 as stated fails: the secret is missing, its create is refused, and
    the handler returns the error of the read without any request for the
    service account. *)
Lemma C7_counterexample :
  (handler exampleConfig liveNamespace
     (exampleWorld [] [okReply] [None; Some Forbidden])).1 = Ret (Some NotFound) /\
  trace (handler exampleConfig liveNamespace
           (exampleWorld [] [okReply] [None; Some Forbidden])).2 =
    [EvLog LError "Error creating secret in ns %s: ";
     EvSecretCreate "team-a" exampleSecret (Some Forbidden);
     EvLog LInfo "Secret does not exist in ns: %s, creating...";
     EvSecretGet "team-a" "ecrsecret" (Some NotFound)] ++ fetchEvents.
Proof. split; vm_compute; reflexivity. Qed.

(** C6, amended: on a live namespace, whenever the read of the secret
    fails, with a not-found status or with any other error, the handler
    goes on to create the secret; when that create fails too it returns
    the error of the read.  A create is only ever sent after a failed
    read. *)
Theorem C6_any_read_failure_leads_to_create cfg ns w out evs w' :
  GetDeletionTimestamp ns = None ->
  runs (handler cfg ns) w out evs w' ->
  (forall e, EvSecretGet (GetName ns) secretName (Some e) ∈ evs ->
     exists s ce,
       EvSecretCreate (GetName ns) s ce ∈ evs /\
       (ce <> None -> out = Ret (Some e))) /\
  (forall s ce, EvSecretCreate (GetName ns) s ce ∈ evs ->
     exists e, EvSecretGet (GetName ns) secretName (Some e) ∈ evs).
Proof.
  intros Hd Hrun. apply handler_cases in Hrun; [|done].
  split.
  - intros e0 Hin.
    destruct Hrun as [msg fev Hreg|s e ce fev Hreg|s e out idev fev Hreg Hid
                     |s ue out idev fev Hreg Hid].
    + by apply (not_fetched _ _ Hreg) in Hin.
    + exists s, (Some ce). split.
      * cbn [app]. repeat (rewrite elem_of_cons; first [left; reflexivity|right]).
      * intros _. split_events Hin; [by injection Hin as ->|].
        by apply (not_fetched _ _ Hreg) in Hin.
    + exists s, None. split; [|done].
      rewrite elem_of_app. right. cbn [app].
      repeat (rewrite elem_of_cons; first [left; reflexivity|right]).
    + destruct Hid as [e'|refs ue' Hl]; split_events Hin;
        by apply (not_fetched _ _ Hreg) in Hin.
  - intros s0 ce0 Hin.
    destruct Hrun as [msg fev Hreg|s e ce fev Hreg|s e out idev fev Hreg Hid
                     |s ue out idev fev Hreg Hid].
    + by apply (not_fetched _ _ Hreg) in Hin.
    + exists e. cbn [app].
      repeat (rewrite elem_of_cons; first [left; reflexivity|right]).
    + exists e. rewrite elem_of_app. right. cbn [app].
      repeat (rewrite elem_of_cons; first [left; reflexivity|right]).
    + destruct Hid as [e'|refs ue' Hl]; split_events Hin;
        by apply (not_fetched _ _ Hreg) in Hin.
Qed.

Lemma C6_any_read_failure_leads_to_create_witness :
  let w := exampleWorld [] [okReply] [Some Forbidden; Some Forbidden] in
  let r := handler exampleConfig liveNamespace w in
  EvSecretGet "team-a" "ecrsecret" (Some Forbidden) ∈ trace r.2 /\
  exists s ce,
    EvSecretCreate "team-a" s ce ∈ trace r.2 /\
    (ce <> None -> r.1 = Ret (Some Forbidden)).
Proof.
  intros w r.
  assert (Hin : EvSecretGet "team-a" "ecrsecret" (Some Forbidden) ∈ trace r.2).
  { vm_compute. repeat constructor. }
  split; [exact Hin|].
  destruct (C6_any_read_failure_leads_to_create
              exampleConfig liveNamespace w r.1 (trace r.2) r.2) as [Hread _].
  - reflexivity.
  - split; [apply surjective_pairing|vm_compute; reflexivity].
  - exact (Hread Forbidden Hin).
Defined.

(** C6 as stated fails: the read of the secret is refused with a status
    that is not not-found, and the handler creates the secret all the same
    and returns nil. *)
Lemma C6_counterexample :
  Forbidden <> NotFound /\
  (handler exampleConfig liveNamespace
     (exampleWorld [] [okReply] [Some Forbidden])).1 = Ret None /\
  trace (handler exampleConfig liveNamespace
           (exampleWorld [] [okReply] [Some Forbidden])).2 =
    [EvServiceAccountUpdate "team-a"
       {| saName := "default"; ImagePullSecrets := [{| Name := "ecrsecret" |}] |} None;
     EvLog LError "Could not get ServiceAccounts! %v";
     EvServiceAccountGet "team-a" "default" None;
     EvSecretCreate "team-a" exampleSecret None;
     EvLog LInfo "Secret does not exist in ns: %s, creating...";
     EvSecretGet "team-a" "ecrsecret" (Some Forbidden)] ++ fetchEvents.
Proof. split; [discriminate|]. split; vm_compute; reflexivity. Qed.

(** C5: on a live namespace, whenever the read of the default service
    account fails, the handler does not return that failure: it scans the
    empty list of the zero object, appends the reference and sends the
    update, which the client refuses for the empty name; the error it
    returns is the one of that update. *)
Theorem C5_identity_read_failure_is_not_returned cfg ns w out evs w' e :
  GetDeletionTimestamp ns = None ->
  runs (handler cfg ns) w out evs w' ->
  EvServiceAccountGet (GetName ns) "default" (Some e) ∈ evs ->
  exists rest,
    evs = EvServiceAccountUpdate (GetName ns)
            {| saName := ""; ImagePullSecrets := [{| Name := secretName |}] |}
            (Some emptyNameErr) :: rest /\
    out = Ret (Some (Errorf "Could update ServiceAccount! %v" emptyNameErr)).
Proof.
  intros Hd Hrun Hin. apply handler_cases in Hrun; [|done].
  destruct Hrun as [msg fev Hreg|s e1 ce fev Hreg|s e1 out idev fev Hreg Hid
                   |s ue out idev fev Hreg Hid].
  - by apply (not_fetched _ _ Hreg) in Hin.
  - split_events Hin. by apply (not_fetched _ _ Hreg) in Hin.
  - destruct Hid as [e'|refs ue' Hl].
    + eexists. split; reflexivity.
    + split_events Hin; by apply (not_fetched _ _ Hreg) in Hin.
  - destruct Hid as [e'|refs ue' Hl].
    + eexists. split; reflexivity.
    + split_events Hin; by apply (not_fetched _ _ Hreg) in Hin.
Qed.

Lemma C5_identity_read_failure_is_not_returned_witness :
  let w := exampleWorldWithSecret [] [okReply] [None; None; Some Forbidden] in
  let r := handler exampleConfig liveNamespace w in
  EvServiceAccountGet "team-a" "default" (Some Forbidden) ∈ trace r.2 /\
  exists rest,
    trace r.2 = EvServiceAccountUpdate "team-a"
                  {| saName := ""; ImagePullSecrets := [{| Name := secretName |}] |}
                  (Some emptyNameErr) :: rest /\
    r.1 = Ret (Some (Errorf "Could update ServiceAccount! %v" emptyNameErr)).
Proof.
  intros w r.
  assert (Hin : EvServiceAccountGet "team-a" "default" (Some Forbidden) ∈ trace r.2).
  { vm_compute. repeat constructor. }
  split; [exact Hin|].
  apply (C5_identity_read_failure_is_not_returned
           exampleConfig liveNamespace w r.1 (trace r.2) r.2 Forbidden).
  - reflexivity.
  - split; [apply surjective_pairing|vm_compute; reflexivity].
  - exact Hin.
Defined.

(** C8: on a live namespace whose default service account already has a
    reference named ecrsecret, a run that reads the account goes on to
    send the update, and the update carries the list as it was read. *)
Theorem C8_update_is_sent_for_an_unchanged_list cfg ns w out evs w' refs :
  GetDeletionTimestamp ns = None ->
  runs (handler cfg ns) w out evs w' ->
  serviceAccounts w !! (GetName ns, "default") = Some refs ->
  0 < countNamed secretName refs ->
  EvServiceAccountGet (GetName ns) "default" None ∈ evs ->
  exists ue rest,
    evs = EvServiceAccountUpdate (GetName ns)
            {| saName := "default"; ImagePullSecrets := refs |} ue :: rest.
Proof.
  intros Hd Hrun Hl Hc Hin. apply handler_cases in Hrun; [|done].
  destruct Hrun as [msg fev Hreg|s e1 ce fev Hreg|s e1 out idev fev Hreg Hid
                   |s ue out idev fev Hreg Hid].
  - by apply (not_fetched _ _ Hreg) in Hin.
  - split_events Hin. by apply (not_fetched _ _ Hreg) in Hin.
  - destruct Hid as [e'|refs' ue' Hl'].
    + split_events Hin; by apply (not_fetched _ _ Hreg) in Hin.
    + rewrite Hl in Hl'. injection Hl' as <-. rewrite ensure_present by done.
      eexists _, _. reflexivity.
  - destruct Hid as [e'|refs' ue' Hl'].
    + split_events Hin; by apply (not_fetched _ _ Hreg) in Hin.
    + rewrite Hl in Hl'. injection Hl' as <-. rewrite ensure_present by done.
      eexists _, _. reflexivity.
Qed.

Lemma C8_update_is_sent_for_an_unchanged_list_witness :
  let w := exampleWorldWithSecret [{| Name := "ecrsecret" |}] [okReply] [] in
  let r := handler exampleConfig liveNamespace w in
  EvServiceAccountGet "team-a" "default" None ∈ trace r.2 /\
  exists ue rest,
    trace r.2 = EvServiceAccountUpdate "team-a"
                  {| saName := "default"; ImagePullSecrets := [{| Name := "ecrsecret" |}] |}
                  ue :: rest.
Proof.
  intros w r.
  assert (Hin : EvServiceAccountGet "team-a" "default" None ∈ trace r.2).
  { vm_compute. repeat constructor. }
  split; [exact Hin|].
  apply (C8_update_is_sent_for_an_unchanged_list
           exampleConfig liveNamespace w r.1 (trace r.2) r.2 [{| Name := "ecrsecret" |}]).
  - reflexivity.
  - split; [apply surjective_pairing|vm_compute; reflexivity].
  - reflexivity.
  - vm_compute. lia.
  - exact Hin.
Defined.

(** * Further properties of the code *)

(** ** [getECRSecret] *)

Lemma getECRSecret_session_failed region name w e :
  sessionErr w = Some e ->
  getECRSecret region name w =
  (Panic "session.Must: NewSession failed",
   logged EvNewSession (logged (EvLog LInfo "Fetching ECR token for region: %s") w)).
Proof.
  intros Hs. destruct w as [secs sas se er fs tr]. cbn in Hs. subst se. reflexivity.
Qed.

(** With a session, the fetch takes one answer, adds its three events and
    at most one printed line, and returns the secret of the answer's first
    credential or panics when there is none. *)
Lemma getECRSecret_session_ok region name w :
  sessionErr w = None ->
  exists out logs,
    getECRSecret region name w =
      (out,
       fetchedWorld (tail (ecrReplies w))
         (logs ++ [EvGetAuthorizationToken region; EvNewSession;
                   EvLog LInfo "Fetching ECR token for region: %s"]) w) /\
    length logs <= 1 /\
    Forall (fun ev => exists what, ev = EvLog LStdout what) logs /\
    match firstCredential (nextReply w) with
    | Some (endpoint, token) => out = Ret (dockerConfigSecret name endpoint token)
    | None => exists msg, out = Panic msg
    end.
Proof.
  intros Hs. destruct w as [secs sas se er fs tr]. cbn in Hs. subst se.
  destruct er as [|[out err] rest];
    [|destruct err as [[code msg| | |]|];
      [destruct (String.eqb code ErrCodeServerException) eqn:Hc1;
       [|destruct (String.eqb code ErrCodeInvalidParameterException) eqn:Hc2]| | | |];
      destruct out as [[[|[[t|] [e|]] ds]]|]];
    cbv beta iota zeta delta
      [getECRSecret newSessionMust GetAuthorizationToken logInfof println emit
       nextEcrReply getWorld panic mbind M_bind mret M_ret fetchedWorld deref index0
       secrets serviceAccounts sessionErr ecrReplies faults trace replyErr replyOutput
       unreachable AuthorizationDataList AuthorizationToken ProxyEndpoint
       firstCredential nextReply tail];
    rewrite ?Hc1, ?Hc2;
    lazymatch goal with
    | |- exists out logs, (?o, {| trace := ?l |}) = _ /\ _ =>
        lazymatch l with
        | EvLog LStdout ?what :: _ =>
            exists o, [EvLog LStdout what]; split; [reflexivity|];
            split; [cbn; lia|]; split; [repeat constructor; by eexists|]
        | _ =>
            exists o, []; split; [reflexivity|];
            split; [cbn; lia|]; split; [constructor|]
        end
    end;
    first [reflexivity | by eexists].
Qed.

(** X1: [getECRSecret] returns a secret exactly when the session can be
    opened and the first entry of the registry's answer has a token and an
    endpoint; the error of the answer plays no part.  The secret it returns
    has the name it was given, the docker-config type and the payload of
    that endpoint and token under the one key. *)
Theorem getECRSecret_returns_iff region name w s :
  (exists w', getECRSecret region name w = (Ret s, w')) <->
  sessionErr w = None /\
  exists endpoint token,
    firstCredential (nextReply w) = Some (endpoint, token) /\
    s = {| secretObjName := name;
           secretType := "kubernetes.io/dockerconfigjson";
           secretData := {[ ".dockerconfigjson" := dockerConfigJSON endpoint token ]} |}.
Proof.
  split.
  - intros [w' H]. destruct (sessionErr w) as [e|] eqn:Hs.
    { by rewrite (getECRSecret_session_failed _ _ _ e Hs) in H. }
    split; [done|].
    destruct (getECRSecret_session_ok region name w Hs) as (out & logs & Hrun & _ & _ & Hout).
    rewrite Hrun in H. injection H as -> _.
    destruct (firstCredential (nextReply w)) as [[endpoint token]|].
    + injection Hout as ->. by exists endpoint, token.
    + by destruct Hout.
  - intros (Hs & endpoint & token & Hc & ->).
    destruct (getECRSecret_session_ok region name w Hs) as (out & logs & Hrun & _ & _ & Hout).
    rewrite Hc in Hout. subst out. eexists. exact Hrun.
Qed.

(** X2: [getECRSecret] leaves the cluster alone: the secrets, the service
    accounts and the script of the API server are as before, and its events
    are registry events and log lines only.  When the session cannot be
    opened it panics before any token request and no answer of the registry
    is used up; otherwise it uses up exactly one answer. *)
Theorem getECRSecret_leaves_cluster region name w out w' :
  getECRSecret region name w = (out, w') ->
  secrets w' = secrets w /\
  serviceAccounts w' = serviceAccounts w /\
  faults w' = faults w /\
  (exists evs, trace w' = evs ++ trace w /\ Forall registryEvent evs /\
     (sessionErr w <> None -> forall r, EvGetAuthorizationToken r ∉ evs)) /\
  ecrReplies w' = match sessionErr w with
                  | Some _ => ecrReplies w
                  | None => tail (ecrReplies w)
                  end.
Proof.
  intros H. destruct (sessionErr w) as [e|] eqn:Hs.
  - rewrite (getECRSecret_session_failed _ _ _ e Hs) in H. injection H as <- <-.
    split; [done|]. split; [done|]. split; [done|]. split; [|done].
    exists [EvNewSession; EvLog LInfo "Fetching ECR token for region: %s"].
    split; [done|]. split; [repeat constructor|].
    intros _ r Hin. rewrite !elem_of_cons, elem_of_nil in Hin.
    destruct Hin as [Hin|[Hin|[]]]; discriminate Hin.
  - destruct (getECRSecret_session_ok region name w Hs)
      as (out' & logs & Hrun & _ & Hlogs & _).
    rewrite Hrun in H. injection H as <- <-.
    split; [done|]. split; [done|]. split; [done|]. split; [|done].
    eexists. split; [reflexivity|]. split; [|done].
    apply Forall_app. split; [|repeat constructor].
    eapply Forall_impl; [exact Hlogs|]. by intros ev [what ->].
Qed.

Lemma getECRSecret_leaves_cluster_witness :
  let r := getECRSecret "us-east-1" secretName (exampleWorld [] [okReply; failedReply] []) in
  secrets r.2 = ∅ /\
  serviceAccounts r.2 = {[ ("team-a", "default") := [] ]} /\
  faults r.2 = [] /\
  ecrReplies r.2 = [failedReply].
Proof.
  intros r.
  destruct (getECRSecret_leaves_cluster "us-east-1" secretName
              (exampleWorld [] [okReply; failedReply] []) r.1 r.2)
    as (Hs & Hsa & Hf & _ & Hr).
  - apply surjective_pairing.
  - split; [exact Hs|]. split; [exact Hsa|]. split; [exact Hf|exact Hr].
Defined.

(** ** The scan and the append (lines 180-192) *)

Lemma countNamed_elem_of name refs :
  0 < countNamed name refs <-> {| Name := name |} ∈ refs.
Proof.
  induction refs as [|r refs IH]; cbn.
  - split; [lia|]. by intros ?%elem_of_nil.
  - rewrite elem_of_cons. destruct (String.eqb (Name r) name) eqn:Hn.
    + split; [|lia]. intros _. left. by apply named_eq.
    + rewrite <- IH. split; [intros; right; lia|].
      intros [<-|H]; [|lia]. cbn in Hn. by rewrite String.eqb_refl in Hn.
Qed.

(** X3: the loop over the references never changes the list, whatever it
    holds: the entry it writes on a match is the entry that is there.  Its
    flag is set exactly when the list has a reference with the name. *)
Theorem rangeImagePullSecrets_keeps_list name refs :
  (rangeImagePullSecrets name refs 0 refs).1 = refs /\
  ((rangeImagePullSecrets name refs 0 refs).2 = true <-> {| Name := name |} ∈ refs).
Proof.
  destruct (countNamed name refs) as [|k] eqn:Hc.
  - rewrite range_absent by done. split; [done|]. cbn.
    rewrite <- countNamed_elem_of, Hc. split; [done|lia].
  - destruct (range_present name refs [] refs eq_refl) as (i & _ & Hl & _ & Hr); [lia|].
    cbn in Hr. rewrite Hr. cbn. split; [by apply list_insert_id|].
    rewrite <- countNamed_elem_of, Hc. split; [lia|done].
Qed.

(** X4: the scan and the append keep every reference in its place and add
    at most one at the end: a list that has the reference comes out as it
    is, a list that lacks it comes out with it appended.  The result always
    has the reference, and scanning it again changes nothing. *)
Theorem ensureImagePullSecret_appends_at_most_once name refs :
  ({| Name := name |} ∈ refs -> ensureImagePullSecret name refs = refs) /\
  ({| Name := name |} ∉ refs ->
     ensureImagePullSecret name refs = refs ++ [{| Name := name |}]) /\
  {| Name := name |} ∈ ensureImagePullSecret name refs /\
  ensureImagePullSecret name (ensureImagePullSecret name refs)
    = ensureImagePullSecret name refs.
Proof.
  assert (Hin : {| Name := name |} ∈ refs -> ensureImagePullSecret name refs = refs).
  { intros H. apply ensure_present. by apply countNamed_elem_of. }
  assert (Hout : {| Name := name |} ∉ refs ->
                 ensureImagePullSecret name refs = refs ++ [{| Name := name |}]).
  { intros H. apply ensure_absent.
    destruct (countNamed name refs) eqn:Hc; [done|].
    destruct H. apply countNamed_elem_of. lia. }
  assert (Hhas : {| Name := name |} ∈ ensureImagePullSecret name refs).
  { destruct (countNamed name refs) as [|k] eqn:Hc.
    - rewrite ensure_absent by done. apply elem_of_app. right. by apply list_elem_of_here.
    - rewrite ensure_present by lia. apply countNamed_elem_of. lia. }
  split; [done|]. split; [done|]. split; [done|].
  apply ensure_present. by apply countNamed_elem_of.
Qed.

Lemma ensureImagePullSecret_appends_at_most_once_witness :
  ensureImagePullSecret "ecrsecret" [{| Name := "ecrsecret" |}; {| Name := "other" |}]
    = [{| Name := "ecrsecret" |}; {| Name := "other" |}] /\
  ensureImagePullSecret "ecrsecret" [{| Name := "other" |}]
    = [{| Name := "other" |}; {| Name := "ecrsecret" |}].
Proof.
  split.
  - destruct (ensureImagePullSecret_appends_at_most_once "ecrsecret"
                [{| Name := "ecrsecret" |}; {| Name := "other" |}]) as (Hin & _).
    apply Hin. apply list_elem_of_here.
  - destruct (ensureImagePullSecret_appends_at_most_once "ecrsecret"
                [{| Name := "other" |}]) as (_ & Hout & _).
    apply Hout. intros H. apply list_elem_of_singleton in H. discriminate H.
Defined.

(** X5: a reference list without repeated entries stays without repeated
    entries through the scan and the append. *)
Theorem ensureImagePullSecret_keeps_NoDup name refs :
  NoDup refs -> NoDup (ensureImagePullSecret name refs).
Proof.
  intros Hnd. destruct (countNamed name refs) as [|k] eqn:Hc.
  - rewrite ensure_absent by done. apply NoDup_app. split; [done|]. split.
    + intros r Hr Hr'. apply list_elem_of_singleton in Hr'. subst r.
      apply countNamed_elem_of in Hr. lia.
    + apply NoDup_singleton.
  - rewrite ensure_present by lia. done.
Qed.

Lemma ensureImagePullSecret_keeps_NoDup_witness :
  NoDup (ensureImagePullSecret "ecrsecret" [{| Name := "other" |}]).
Proof.
  apply (ensureImagePullSecret_keeps_NoDup "ecrsecret" [{| Name := "other" |}]).
  apply NoDup_singleton.
Defined.

(** ** What a run of the handler does to the secrets *)

Lemma secrets_logged ev w : secrets (logged ev w) = secrets w.
Proof. reflexivity. Qed.

Lemma secrets_answered w : secrets (answered w) = secrets w.
Proof. reflexivity. Qed.

Lemma secrets_sent name w : secrets (sent name w) = secrets w.
Proof. unfold sent. by destruct (String.eqb name ""). Qed.

Lemma secrets_saWritten ns sa err w : secrets (saWritten ns sa err w) = secrets w.
Proof. by destruct err. Qed.

Lemma secrets_fetchedWorld replies evs w : secrets (fetchedWorld replies evs w) = secrets w.
Proof. reflexivity. Qed.

Lemma secrets_if (b : bool) w1 w2 :
  secrets (if b then w1 else w2) = if b then secrets w1 else secrets w2.
Proof. by destruct b. Qed.

#[local] Hint Rewrite secrets_logged secrets_answered secrets_sent secrets_saWritten
  secrets_fetchedWorld : world.

Lemma identityStep_secrets ns newSecret err w out w' :
  identityStep ns newSecret err w = (out, w') -> secrets w' = secrets w.
Proof.
  intros H. rewrite identityStep_run in H. cbv zeta in H. injection H as _ <-.
  autorewrite with world. rewrite secrets_if. by destruct (errNeq _ _).
Qed.

(** A run leaves the secrets alone or stores the secret of the fetched
    credential under the name ecrsecret of the namespace. *)
Lemma handler_secrets cfg ns w out w' :
  handler cfg ns w = (out, w') ->
  secrets w' = secrets w \/
  (GetDeletionTimestamp ns = None /\ sessionErr w = None /\
   exists endpoint token,
     firstCredential (nextReply w) = Some (endpoint, token) /\
     secrets w' =
       <[(GetName ns, secretName) := dockerConfigSecret secretName endpoint token]>
         (secrets w)).
Proof.
  intros H.
  destruct (GetDeletionTimestamp ns) as [ts|] eqn:Hd.
  { unfold handler in H. rewrite Hd in H. injection H as <- <-. by left. }
  rewrite handler_run in H by done.
  destruct (sessionErr w) as [e|] eqn:Hs.
  { rewrite (getECRSecret_session_failed _ _ _ e Hs) in H. injection H as <- <-. by left. }
  destruct (getECRSecret_session_ok (AWSRegion cfg) secretName w Hs)
    as (fout & logs & Hf & _ & _ & Hout).
  rewrite Hf in H.
  destruct (firstCredential (nextReply w)) as [[endpoint token]|];
    [subst fout|destruct Hout as [msg ->]; injection H as <- <-; by left].
  cbv zeta in H.
  destruct (secretGetResult _ _ _) as [s [e|]] in H; cbn [fst snd] in H.
  - destruct (secretCreateErr _ _ _) as [ce|] in H.
    + injection H as <- <-. left. by autorewrite with world.
    + apply identityStep_secrets in H. rewrite H. right.
      split; [done|]. split; [done|]. exists endpoint, token. split; [done|].
      cbn [secretWritten secrets logged withSecrets secretObjName dockerConfigSecret].
      by autorewrite with world.
  - destruct (secretUpdateErr _ _ _) as [ue|] in H;
      apply identityStep_secrets in H; rewrite H.
    + left. by autorewrite with world.
    + right. split; [done|]. split; [done|]. exists endpoint, token. split; [done|].
      cbn [secretWritten secrets logged withSecrets secretObjName dockerConfigSecret].
      by autorewrite with world.
Qed.

(** X6: a run of the handler for a namespace changes no secret but the one
    named ecrsecret in that namespace, and deletes none; that secret is
    left as it was or becomes the secret of the credential just fetched. *)
Theorem handler_touches_only_its_secret cfg ns w out w' :
  handler cfg ns w = (out, w') ->
  (forall k, k <> (GetName ns, "ecrsecret") -> secrets w' !! k = secrets w !! k) /\
  (forall k, is_Some (secrets w !! k) -> is_Some (secrets w' !! k)) /\
  (secrets w' !! (GetName ns, "ecrsecret") = secrets w !! (GetName ns, "ecrsecret") \/
   exists endpoint token,
     firstCredential (nextReply w) = Some (endpoint, token) /\
     secrets w' !! (GetName ns, "ecrsecret")
       = Some (dockerConfigSecret "ecrsecret" endpoint token)).
Proof.
  intros H.
  destruct (handler_secrets _ _ _ _ _ H)
    as [->|(_ & _ & endpoint & token & Hc & ->)].
  - split; [done|]. split; [done|]. by left.
  - split; [|split].
    + intros k Hk. by rewrite lookup_insert_ne.
    + intros k Hk. destruct (decide (k = (GetName ns, secretName))) as [->|Hne].
      * rewrite lookup_insert_eq. by eexists.
      * by rewrite lookup_insert_ne.
    + right. exists endpoint, token. split; [done|]. apply lookup_insert_eq.
Qed.

Lemma handler_touches_only_its_secret_witness :
  let w := exampleWorldWithSecret [] [okReply] [] in
  let ns := {| nsName := "team-b"; nsDeletionTimestamp := None |} in
  secrets (handler exampleConfig ns w).2 !! ("team-a", "ecrsecret")
    = Some exampleSecret.
Proof.
  intros w ns.
  destruct (handler_touches_only_its_secret exampleConfig ns w
              (handler exampleConfig ns w).1 (handler exampleConfig ns w).2)
    as (Hother & _ & _).
  - apply surjective_pairing.
  - rewrite (Hother ("team-a", "ecrsecret")); [reflexivity|discriminate].
Defined.

(** X7: a run of the handler for a namespace changes no service account
    but the one named default in that namespace, and it neither creates nor
    deletes a service account; the references of that account are left as
    they were or become the scanned list. *)
Theorem handler_touches_only_the_default_account cfg ns w out w' :
  handler cfg ns w = (out, w') ->
  (forall k, k <> (GetName ns, "default") ->
     serviceAccounts w' !! k = serviceAccounts w !! k) /\
  dom (serviceAccounts w') = dom (serviceAccounts w) /\
  (forall refs,
     serviceAccounts w !! (GetName ns, "default") = Some refs ->
     serviceAccounts w' !! (GetName ns, "default") = Some refs \/
     serviceAccounts w' !! (GetName ns, "default")
       = Some (ensureImagePullSecret "ecrsecret" refs)).
Proof.
  intros H.
  destruct (handler_serviceAccounts _ _ _ _ _ H) as [[-> _]|(_ & _ & refs' & Hl' & ->)].
  - split; [done|]. split; [done|]. intros refs Hl. by left.
  - split; [|split].
    + intros k Hk. by rewrite lookup_insert_ne.
    + rewrite dom_insert_L.
      apply subseteq_union_1_L, singleton_subseteq_l, elem_of_dom. by eexists.
    + intros refs Hl. rewrite Hl in Hl'. injection Hl' as <-.
      right. apply lookup_insert_eq.
Qed.

Lemma handler_touches_only_the_default_account_witness :
  let w := exampleWorld [{| Name := "other" |}] [okReply] [] in
  let ns := {| nsName := "team-b"; nsDeletionTimestamp := None |} in
  serviceAccounts (handler exampleConfig ns w).2 !! ("team-a", "default")
    = Some [{| Name := "other" |}] /\
  dom (serviceAccounts (handler exampleConfig ns w).2) = dom (serviceAccounts w).
Proof.
  intros w ns.
  destruct (handler_touches_only_the_default_account exampleConfig ns w
              (handler exampleConfig ns w).1 (handler exampleConfig ns w).2)
    as (Hother & Hdom & _).
  - apply surjective_pairing.
  - split; [|exact Hdom].
    rewrite (Hother ("team-a", "default")); [reflexivity|discriminate].
Defined.

(** X8: when the handler returns nil for a live namespace, the namespace
    has a secret named ecrsecret and its default service account has a
    reference to it.  The secret may be an older one: a failed update of
    the secret does not keep the handler from returning nil. *)
Theorem handler_nil_means_referenced cfg ns w w' :
  GetDeletionTimestamp ns = None ->
  handler cfg ns w = (Ret None, w') ->
  is_Some (secrets w' !! (GetName ns, "ecrsecret")) /\
  exists refs,
    serviceAccounts w' !! (GetName ns, "default") = Some refs /\
    {| Name := "ecrsecret" |} ∈ refs.
Proof.
  intros Hd H. split.
  - rewrite handler_run in H by done.
    destruct (getECRSecret_run (AWSRegion cfg) secretName w)
      as (fout & replies & fev & Hf & _ & Hs).
    rewrite Hf in H. destruct fout as [newSecret|msg]; [|discriminate H].
    destruct Hs as (endpoint & token & ->). cbv zeta in H.
    destruct (secretGetResult _ _ _) as [s [e|]] eqn:Hg in H; cbn [fst snd] in H.
    + destruct (secretCreateErr _ _ _) as [ce|] in H; [discriminate H|].
      apply identityStep_secrets in H. rewrite H.
      cbn [secretWritten secrets logged withSecrets secretObjName dockerConfigSecret].
      rewrite lookup_insert_eq. by eexists.
    + assert (Hs : secrets w !! (GetName ns, secretName) = Some s).
      { unfold secretGetResult in Hg. destruct (peekFault _); [discriminate Hg|].
        autorewrite with world in Hg.
        destruct (secrets w !! (GetName ns, secretName)); [|discriminate Hg].
        by injection Hg as ->. }
      destruct (secretUpdateErr _ _ _) as [ue|] in H;
        apply identityStep_secrets in H; rewrite H.
      * autorewrite with world. by exists s.
      * cbn [secretWritten secrets logged withSecrets secretObjName dockerConfigSecret].
        rewrite lookup_insert_eq. by eexists.
  - destruct (handler_serviceAccounts _ _ _ _ _ H) as [[_ Hne]|(_ & _ & refs & Hl & ->)].
    + by destruct (Hne Hd).
    + exists (ensureImagePullSecret secretName refs).
      split; [apply lookup_insert_eq|].
      destruct (countNamed secretName refs) as [|k] eqn:Hc.
      * rewrite ensure_absent by done. apply elem_of_app. right. apply list_elem_of_here.
      * rewrite ensure_present by lia. apply (countNamed_elem_of secretName). lia.
Qed.

Lemma handler_nil_means_referenced_witness :
  let w := exampleWorldWithSecret [] [okReply] [None; Some Forbidden] in
  (handler exampleConfig liveNamespace w).1 = Ret None /\
  is_Some (secrets (handler exampleConfig liveNamespace w).2 !! ("team-a", "ecrsecret")) /\
  exists refs,
    serviceAccounts (handler exampleConfig liveNamespace w).2 !! ("team-a", "default")
      = Some refs /\
    {| Name := "ecrsecret" |} ∈ refs.
Proof.
  intros w. split; [vm_compute; reflexivity|].
  apply (handler_nil_means_referenced exampleConfig liveNamespace w).
  - reflexivity.
  - vm_compute. reflexivity.
Defined.

(** ** The run in which every call succeeds *)

Lemma handler_success cfg ns w reply rest endpoint token refs :
  GetDeletionTimestamp ns = None ->
  sessionErr w = None ->
  ecrReplies w = reply :: rest ->
  firstCredential reply = Some (endpoint, token) ->
  Forall (eq None) (take 4 (faults w)) ->
  serviceAccounts w !! (GetName ns, "default") = Some refs ->
  exists w',
    handler cfg ns w = (Ret None, w') /\
    secrets w' =
      <[(GetName ns, secretName) := dockerConfigSecret secretName endpoint token]>
        (secrets w) /\
    serviceAccounts w' =
      <[(GetName ns, "default") := ensureImagePullSecret secretName refs]>
        (serviceAccounts w) /\
    sessionErr w' = None /\
    ecrReplies w' = rest /\
    faults w' = drop 4 (faults w).
Proof.
  intros Hd Hs Hr Hc Hf Hl.
  rewrite handler_run by done.
  destruct (getECRSecret_session_ok (AWSRegion cfg) secretName w Hs)
    as (fout & logs & Hrun & _ & _ & Hout).
  unfold nextReply in Hout. rewrite Hr, Hc in Hout. subst fout. rewrite Hrun. clear Hrun.
  destruct w as [secs sas se er fs tr]. cbn in Hs, Hr, Hf, Hl. subst se er.
  assert (Hfs : fs = [] \/ fs = [None] \/ fs = [None; None] \/ fs = [None; None; None]
                \/ exists fs', fs = None :: None :: None :: None :: fs').
  { destruct fs as [|f1 [|f2 [|f3 [|f4 fs']]]]; cbn in Hf;
      repeat match goal with H : Forall _ (_ :: _) |- _ => inversion H; clear H; subst end;
      eauto 10. }
  clear Hf.
  destruct Hfs as [->|[->|[->|[->|[fs' ->]]]]];
    cbv zeta; unfold secretGetResult, peekFault, fetchedWorld;
    cbn [faults secrets serviceAccounts sessionErr ecrReplies trace answered logged tail fst snd].
  all: unfold secretUpdateErr, secretCreateErr, peekFault;
    cbn [faults secrets answered logged tail secretObjName dockerConfigSecret];
    change (String.eqb secretName "") with false; cbv iota.
  all: destruct (secs !! (GetName ns, secretName)) as [s|] eqn:Hsec; cbn [fst snd].
  all: rewrite identityStep_run; cbv zeta;
    unfold saGetResult, saUpdateErr, secretWritten, sent, peekFault;
    cbn [faults secrets serviceAccounts answered logged withSecrets tail fst snd
         secretObjName dockerConfigSecret];
    change (String.eqb secretName "") with false; cbv iota;
    cbn [faults secrets serviceAccounts answered logged withSecrets tail fst snd];
    rewrite Hl; cbn [fst snd saName ImagePullSecrets errNeq];
    change (String.eqb "default" "") with false; cbv iota;
    cbn [faults secrets serviceAccounts answered logged withSecrets tail fst snd];
    rewrite Hl; cbn [saWritten updateResult saName ImagePullSecrets].
  all: lazymatch goal with
       | |- exists w', (_, ?w1) = _ /\ _ => exists w1
       end;
    split; [reflexivity|];
    cbn [faults secrets serviceAccounts sessionErr ecrReplies answered logged
         withSecrets withServiceAccounts tail drop];
    repeat split; reflexivity.
Qed.

Lemma Forall_take_add {A} (P : A -> Prop) n m (l : list A) :
  Forall P (take (n + m) l) -> Forall P (take n l) /\ Forall P (take m (drop n l)).
Proof.
  revert l. induction n as [|n IH]; intros l H; cbn in *.
  - split; [constructor|]. by rewrite drop_0.
  - destruct l as [|x l]; cbn in *.
    + split; [constructor|]. by rewrite take_nil.
    + inversion H as [|? ? Hx Hl]; subst. destruct (IH l Hl) as [H1 H2].
      split; [by constructor|done].
Qed.

(** X9: on a live namespace whose default service account exists, when the
    session opens, the registry's answer has a credential and the API
    server lets the four requests of the run through, the handler returns
    nil; afterwards the secret ecrsecret of the namespace is the secret of
    that credential, whether it was there before or not, the default
    account has the scanned list, one answer of the registry and four
    entries of the server's script are used up, and nothing else in the
    cluster has changed. *)
Theorem handler_reconciles cfg ns w reply rest endpoint token refs :
  GetDeletionTimestamp ns = None ->
  sessionErr w = None ->
  ecrReplies w = reply :: rest ->
  firstCredential reply = Some (endpoint, token) ->
  Forall (eq None) (take 4 (faults w)) ->
  serviceAccounts w !! (GetName ns, "default") = Some refs ->
  exists w',
    handler cfg ns w = (Ret None, w') /\
    secrets w' =
      <[(GetName ns, "ecrsecret") := dockerConfigSecret "ecrsecret" endpoint token]>
        (secrets w) /\
    serviceAccounts w' =
      <[(GetName ns, "default") := ensureImagePullSecret "ecrsecret" refs]>
        (serviceAccounts w) /\
    ecrReplies w' = rest /\
    faults w' = drop 4 (faults w).
Proof.
  intros Hd Hs Hr Hc Hf Hl.
  destruct (handler_success cfg ns w reply rest endpoint token refs Hd Hs Hr Hc Hf Hl)
    as (w' & H & Hsec & Hsa & _ & Hrep & Hfs).
  by exists w'.
Qed.

Lemma handler_reconciles_witness :
  let w := exampleWorld [{| Name := "other" |}] [okReply] [] in
  exists w',
    handler exampleConfig liveNamespace w = (Ret None, w') /\
    secrets w' = <[("team-a", "ecrsecret") := exampleSecret]> (secrets w) /\
    serviceAccounts w' =
      <[("team-a", "default") := ensureImagePullSecret "ecrsecret" [{| Name := "other" |}]]>
        (serviceAccounts w) /\
    ecrReplies w' = [] /\
    faults w' = drop 4 (faults w).
Proof.
  intros w.
  apply (handler_reconciles exampleConfig liveNamespace w
           okReply [] exampleEndpoint exampleToken [{| Name := "other" |}]).
  - reflexivity.
  - reflexivity.
  - reflexivity.
  - reflexivity.
  - constructor.
  - reflexivity.
Defined.

(** X10: reconciling a namespace twice with the same credential, all calls
    succeeding, leaves the secrets and the service accounts after the
    second run as they are after the first. *)
Theorem handler_twice_same_cluster cfg ns w reply1 reply2 rest endpoint token refs :
  GetDeletionTimestamp ns = None ->
  sessionErr w = None ->
  ecrReplies w = reply1 :: reply2 :: rest ->
  firstCredential reply1 = Some (endpoint, token) ->
  firstCredential reply2 = Some (endpoint, token) ->
  Forall (eq None) (take 8 (faults w)) ->
  serviceAccounts w !! (GetName ns, "default") = Some refs ->
  exists w1 w2,
    handler cfg ns w = (Ret None, w1) /\
    handler cfg ns w1 = (Ret None, w2) /\
    secrets w2 = secrets w1 /\
    serviceAccounts w2 = serviceAccounts w1.
Proof.
  intros Hd Hs Hr Hc1 Hc2 Hf Hl.
  apply (Forall_take_add _ 4 4) in Hf as [Hf1 Hf2].
  destruct (handler_success cfg ns w reply1 (reply2 :: rest) endpoint token refs
              Hd Hs Hr Hc1 Hf1 Hl)
    as (w1 & H1 & Hsec1 & Hsa1 & Hs1 & Hrep1 & Hfs1).
  rewrite <- Hfs1 in Hf2.
  assert (Hl1 : serviceAccounts w1 !! (GetName ns, "default")
                = Some (ensureImagePullSecret secretName refs)).
  { rewrite Hsa1. apply lookup_insert_eq. }
  destruct (handler_success cfg ns w1 reply2 rest endpoint token
              (ensureImagePullSecret secretName refs) Hd Hs1 Hrep1 Hc2 Hf2 Hl1)
    as (w2 & H2 & Hsec2 & Hsa2 & _).
  exists w1, w2. split; [done|]. split; [done|]. split.
  - rewrite Hsec2, Hsec1. apply insert_insert_eq.
  - rewrite Hsa2, Hsa1.
    assert (Hidem : ensureImagePullSecret secretName (ensureImagePullSecret secretName refs)
                    = ensureImagePullSecret secretName refs).
    { apply ensure_present. apply countNamed_elem_of.
      destruct (countNamed secretName refs) as [|k] eqn:Hk.
      - rewrite ensure_absent by done. apply elem_of_app. right. apply list_elem_of_here.
      - rewrite ensure_present by lia. apply countNamed_elem_of. lia. }
    rewrite Hidem. apply insert_insert_eq.
Qed.

Lemma handler_twice_same_cluster_witness :
  exists w1 w2,
    handler exampleConfig liveNamespace
      (exampleWorld [{| Name := "other" |}] [okReply; okReply] []) = (Ret None, w1) /\
    handler exampleConfig liveNamespace w1 = (Ret None, w2) /\
    secrets w2 = secrets w1 /\
    serviceAccounts w2 = serviceAccounts w1.
Proof.
  apply (handler_twice_same_cluster exampleConfig liveNamespace
           (exampleWorld [{| Name := "other" |}] [okReply; okReply] [])
           okReply okReply [] exampleEndpoint exampleToken [{| Name := "other" |}]).
  - reflexivity.
  - reflexivity.
  - reflexivity.
  - reflexivity.
  - reflexivity.
  - constructor.
  - reflexivity.
Defined.

(** ** The dispatch of events *)

Lemma onEvent_terminating cfg ev w :
  ~ liveEvent ev -> onEvent (handler cfg) ev w = (Ret tt, w).
Proof.
  unfold liveEvent, onEvent, handler, mbind, M_bind. intros Hd.
  by destruct (GetDeletionTimestamp (eventObject ev)).
Qed.

(** X11: events of namespaces with a deletion timestamp, added or updated,
    count for nothing in a stream of events: the dispatch ends with the
    same result in the same world as the dispatch of the live events
    alone. *)
Theorem dispatch_skips_terminating cfg events w :
  dispatch (handler cfg) events w = dispatch (handler cfg) (filter liveEvent events) w.
Proof.
  revert w. induction events as [|ev events IH]; intros w; [done|].
  rewrite filter_cons. destruct (decide (liveEvent ev)) as [Hlive|Hdead].
  - cbn [dispatch]. unfold mbind, M_bind.
    destruct (onEvent (handler cfg) ev w) as [[[]|msg] w1]; [apply IH|done].
  - cbn [dispatch]. unfold mbind, M_bind at 1.
    rewrite onEvent_terminating by done. apply IH.
Qed.

(** ** Panics *)

(** X12: the handler panics only in the fetch of the credential: when it
    panics the namespace is live, [getECRSecret] has panicked with that
    message in that world, and either the session could not be opened or
    the registry's answer had no credential.  No call of the cluster makes
    it panic. *)
Theorem handler_panics_only_in_fetch cfg ns w msg w' :
  handler cfg ns w = (Panic msg, w') ->
  GetDeletionTimestamp ns = None /\
  getECRSecret (AWSRegion cfg) secretName w = (Panic msg, w') /\
  (sessionErr w <> None \/ firstCredential (nextReply w) = None).
Proof.
  intros H.
  destruct (GetDeletionTimestamp ns) as [ts|] eqn:Hd.
  { unfold handler in H. rewrite Hd in H. discriminate H. }
  split; [done|].
  rewrite handler_run in H by done.
  destruct (getECRSecret (AWSRegion cfg) secretName w) as [[newSecret|msg'] w1] eqn:Hf.
  - exfalso. cbv zeta in H.
    destruct (secretGetResult _ _ _) as [s [e|]] in H; cbn [fst snd] in H.
    + destruct (secretCreateErr _ _ _) as [ce|] in H; [discriminate H|].
      rewrite identityStep_run in H. discriminate H.
    + rewrite identityStep_run in H. discriminate H.
  - injection H as -> ->. split; [done|].
    destruct (sessionErr w) as [e|] eqn:Hs; [by left|right].
    destruct (getECRSecret_session_ok (AWSRegion cfg) secretName w Hs)
      as (out & logs & Hrun & _ & _ & Hout).
    rewrite Hrun in Hf. injection Hf as -> _.
    destruct (firstCredential (nextReply w)) as [[endpoint token]|]; [discriminate Hout|done].
Qed.

Lemma handler_panics_only_in_fetch_witness :
  let w := exampleWorld [] [failedReply] [] in
  (handler exampleConfig liveNamespace w).1 = Panic "runtime error: index out of range" /\
  getECRSecret "us-east-1" secretName w
    = (Panic "runtime error: index out of range", (handler exampleConfig liveNamespace w).2).
Proof.
  intros w. split; [vm_compute; reflexivity|].
  apply (handler_panics_only_in_fetch exampleConfig liveNamespace w).
  vm_compute. reflexivity.
Defined.

(** ** The region of the token request *)

Lemma identityStep_no_token_request ns newSecret err w out w' :
  identityStep ns newSecret err w = (out, w') ->
  exists idev,
    trace w' = idev ++ trace w /\
    Forall (fun ev => forall r, ev <> EvGetAuthorizationToken r) idev.
Proof.
  intros H. rewrite identityStep_run in H. cbv zeta in H. injection H as _ <-.
  autorewrite with world.
  destruct (errNeq _ _); autorewrite with world;
    [eexists [_; _; _]|eexists [_; _]]; (split; [reflexivity|]);
    repeat constructor; discriminate.
Qed.

(** With a session, the events of a run on a live namespace are those of
    the cluster calls and their log lines, after the printed line of the
    fetch, if any, its one token request, the session and the first log
    line. *)
Lemma handler_events_with_session cfg ns w out w' :
  GetDeletionTimestamp ns = None ->
  sessionErr w = None ->
  handler cfg ns w = (out, w') ->
  exists post logs,
    trace w' =
      (post ++ logs ++ [EvGetAuthorizationToken (AWSRegion cfg); EvNewSession;
                        EvLog LInfo "Fetching ECR token for region: %s"]) ++ trace w /\
    Forall (fun ev => exists what, ev = EvLog LStdout what) logs /\
    Forall (fun ev => forall r, ev <> EvGetAuthorizationToken r) post.
Proof.
  intros Hd Hs H. rewrite handler_run in H by done.
  destruct (getECRSecret_session_ok (AWSRegion cfg) secretName w Hs)
    as (fout & logs & Hrun & _ & Hlogs & _).
  rewrite Hrun in H. clear Hrun.
  destruct fout as [newSecret|msg].
  2:{ injection H as _ <-. exists [], logs. split; [reflexivity|]. by split. }
  cbv zeta in H.
  destruct (secretGetResult _ _ _) as [s [e|]] in H; cbn [fst snd] in H.
  - destruct (secretCreateErr _ _ _) as [ce|] in H.
    + injection H as _ <-. autorewrite with world.
      eexists [_; _; _; _], logs. split; [reflexivity|]. split; [done|].
      repeat constructor; discriminate.
    + apply identityStep_no_token_request in H as (idev & -> & Hid).
      autorewrite with world.
      eexists (idev ++ [_; _; _]), logs. split; [by rewrite <- !app_assoc|].
      split; [done|]. apply Forall_app. split; [done|].
      repeat constructor; discriminate.
  - apply identityStep_no_token_request in H as (idev & -> & Hid).
    destruct (secretUpdateErr _ _ _) as [ue|]; autorewrite with world.
    + eexists (idev ++ [_; _; _; _]), logs. split; [by rewrite <- !app_assoc|].
      split; [done|]. apply Forall_app. split; [done|].
      repeat constructor; discriminate.
    + eexists (idev ++ [_; _; _]), logs. split; [by rewrite <- !app_assoc|].
      split; [done|]. apply Forall_app. split; [done|].
      repeat constructor; discriminate.
Qed.

(** X13: with a session, a run of the handler closed over the parsed
    command line, on a live namespace, asks the registry for a token for
    the region given by [-aws_region] (the empty region when the flag is
    absent), and for no other region. *)
Theorem handler_requests_token_for_flag_region fl ns w out evs w' :
  GetDeletionTimestamp ns = None ->
  sessionErr w = None ->
  runs (handler (parse fl) ns) w out evs w' ->
  EvGetAuthorizationToken (default "" (stringFlags fl !! "aws_region")) ∈ evs /\
  (forall r, EvGetAuthorizationToken r ∈ evs ->
     r = default "" (stringFlags fl !! "aws_region")).
Proof.
  intros Hd Hs [H Htr].
  destruct (handler_events_with_session _ _ _ _ _ Hd Hs H)
    as (post & logs & Htr' & Hlogs & Hpost).
  rewrite Htr' in Htr. apply app_inv_tail in Htr as <-.
  change (AWSRegion (parse fl)) with (default "" (stringFlags fl !! "aws_region")).
  split.
  - rewrite !elem_of_app. right. right. apply list_elem_of_here.
  - intros r Hin. rewrite !elem_of_app in Hin. destruct Hin as [Hin|[Hin|Hin]].
    + rewrite Forall_forall in Hpost. by destruct (Hpost _ Hin r).
    + rewrite Forall_forall in Hlogs. destruct (Hlogs _ Hin) as [what Hw]. discriminate Hw.
    + rewrite !elem_of_cons, elem_of_nil in Hin.
      destruct Hin as [Hin|[Hin|[Hin|[]]]]; [by injection Hin|discriminate Hin..].
Qed.

Lemma handler_requests_token_for_flag_region_witness :
  let r := handler (parse exampleFlags) liveNamespace (exampleWorld [] [okReply] []) in
  EvGetAuthorizationToken "us-east-1" ∈ trace r.2 /\
  (forall region, EvGetAuthorizationToken region ∈ trace r.2 -> region = "us-east-1").
Proof.
  intros r.
  apply (handler_requests_token_for_flag_region exampleFlags liveNamespace
           (exampleWorld [] [okReply] []) r.1 (trace r.2) r.2).
  - reflexivity.
  - reflexivity.
  - split; [apply surjective_pairing|vm_compute; reflexivity].
Defined.

(** ** [NewKubeClient] *)

Lemma length_zero_iff_empty (s : string) : Nat.eqb (String.length s) 0 = true <-> s = "".
Proof. destruct s; cbn; split; done. Qed.

(** X14: [NewKubeClient] never returns a client together with an error,
    and it swallows no error: it returns an error exactly when the source
    of the configuration it chose, or [NewForConfig] on that
    configuration, reports one, and the error it returns is that one;
    otherwise it returns what [NewForConfig] returned. *)
Theorem NewKubeClient_error_or_client {RestConfig Clientset : Type}
    (lib : KubeLibrary RestConfig Clientset) (kubeCfgFile : string) :
  let source := if decide (kubeCfgFile = "") then InClusterConfig lib
                else BuildConfigFromFlags lib "" kubeCfgFile in
  let result := (NewKubeClient lib kubeCfgFile).2 in
  (result.2 <> None -> result.1 = None) /\
  (forall e, source.2 = Some e -> result = (None, Some e)) /\
  (forall e, source.2 = None -> (NewForConfig lib source.1).2 = Some e ->
             result = (None, Some e)) /\
  (source.2 = None -> (NewForConfig lib source.1).2 = None ->
   result = ((NewForConfig lib source.1).1, None)).
Proof.
  cbv zeta. unfold NewKubeClient.
  destruct (decide (kubeCfgFile = "")) as [->|Hne].
  - cbn [String.length Nat.eqb].
    destruct (InClusterConfig lib) as [cfg [e|]]; cbn [fst snd].
    + split; [done|]. split; [by intros ? [= ->]|]. split; done.
    + destruct (NewForConfig lib cfg) as [client [e|]]; cbn [fst snd].
      * split; [done|]. split; [done|]. split; [by intros ? _ [= ->]|done].
      * split; [done|]. split; [done|]. split; done.
  - destruct (Nat.eqb (String.length kubeCfgFile) 0) eqn:Hlen.
    { by apply length_zero_iff_empty in Hlen. }
    destruct (BuildConfigFromFlags lib "" kubeCfgFile) as [cfg [e|]]; cbn [fst snd].
    + split; [done|]. split; [by intros ? [= ->]|]. split; done.
    + destruct (NewForConfig lib cfg) as [client [e|]]; cbn [fst snd].
      * split; [done|]. split; [done|]. split; [by intros ? _ [= ->]|done].
      * split; [done|]. split; [done|]. split; done.
Qed.

Lemma NewKubeClient_error_or_client_witness :
  (NewKubeClient exampleLibrary "/etc/kubeconfig").2 = (Some "/etc/kubeconfig", None) /\
  (NewKubeClient exampleLibrary "").2
    = (None, Some (RequestError "not running in a cluster")).
Proof.
  destruct (NewKubeClient_error_or_client exampleLibrary "/etc/kubeconfig")
    as (_ & _ & _ & Hok).
  destruct (NewKubeClient_error_or_client exampleLibrary "") as (_ & Herr & _).
  split.
  - apply Hok; reflexivity.
  - apply Herr. reflexivity.
Defined.

(** X15: with an empty path [NewKubeClient] consults the in-cluster
    configuration and never the kubeconfig loader; with a path it consults
    the loader for that path with an empty master URL, and never the
    in-cluster configuration.  It logs an error line only when the loader
    fails. *)
Theorem NewKubeClient_sources {RestConfig Clientset : Type}
    (lib lib' : KubeLibrary RestConfig Clientset) (kubeCfgFile : string) :
  (forall cfg, NewForConfig lib cfg = NewForConfig lib' cfg) ->
  (kubeCfgFile = "" -> InClusterConfig lib = InClusterConfig lib' ->
   NewKubeClient lib kubeCfgFile = NewKubeClient lib' kubeCfgFile) /\
  (kubeCfgFile <> "" ->
   BuildConfigFromFlags lib "" kubeCfgFile = BuildConfigFromFlags lib' "" kubeCfgFile ->
   NewKubeClient lib kubeCfgFile = NewKubeClient lib' kubeCfgFile) /\
  (EvLog LError "Got error trying to create client: " ∈ (NewKubeClient lib kubeCfgFile).1 <->
   kubeCfgFile <> "" /\ (BuildConfigFromFlags lib "" kubeCfgFile).2 <> None).
Proof.
  intros Hnew. split; [|split].
  - intros -> Hin. unfold NewKubeClient. cbn [String.length Nat.eqb].
    rewrite Hin. destruct (InClusterConfig lib') as [cfg [e|]]; [done|].
    by rewrite Hnew.
  - intros Hne Hb. unfold NewKubeClient.
    destruct (Nat.eqb (String.length kubeCfgFile) 0) eqn:Hlen.
    { by apply length_zero_iff_empty in Hlen. }
    rewrite Hb. destruct (BuildConfigFromFlags lib' "" kubeCfgFile) as [cfg [e|]]; [done|].
    by rewrite Hnew.
  - unfold NewKubeClient.
    destruct (Nat.eqb (String.length kubeCfgFile) 0) eqn:Hlen.
    + apply length_zero_iff_empty in Hlen. subst kubeCfgFile.
      destruct (InClusterConfig lib) as [cfg [e|]];
        [|destruct (NewForConfig lib cfg) as [client [e|]]]; cbn [fst];
        (split; [intros H%list_elem_of_singleton; discriminate H|by intros [? _]]).
    + assert (Hne : kubeCfgFile <> "").
      { intros ->. discriminate Hlen. }
      destruct (BuildConfigFromFlags lib "" kubeCfgFile) as [cfg [e|]]; cbn [fst snd].
      * split; [done|]. intros _. apply list_elem_of_here.
      * destruct (NewForConfig lib cfg) as [client [e|]]; cbn [fst];
          (split; [intros H%list_elem_of_singleton; discriminate H|by intros [_ ?]]).
Qed.

Lemma NewKubeClient_sources_witness :
  NewKubeClient exampleLibrary "/etc/kubeconfig"
    = NewKubeClient
        {| InClusterConfig := (Some "in-cluster", None);
           BuildConfigFromFlags := BuildConfigFromFlags exampleLibrary;
           NewForConfig := NewForConfig exampleLibrary |} "/etc/kubeconfig".
Proof.
  destruct (NewKubeClient_sources exampleLibrary
              {| InClusterConfig := (Some "in-cluster", None);
                 BuildConfigFromFlags := BuildConfigFromFlags exampleLibrary;
                 NewForConfig := NewForConfig exampleLibrary |} "/etc/kubeconfig")
    as (_ & Hpath & _).
  - reflexivity.
  - apply Hpath; [discriminate|reflexivity].
Defined.

(** ** The calls of one run *)

Lemma countRequests_app evs1 evs2 :
  countRequests (evs1 ++ evs2) = countRequests evs1 + countRequests evs2.
Proof. induction evs1 as [|ev evs1 IH]; cbn; [done|]. rewrite IH. lia. Qed.

Lemma countRequests_registry fev :
  Forall registryEvent fev -> countRequests fev = 0.
Proof.
  induction 1 as [|ev fev Hev _ IH]; [done|].
  cbn. rewrite IH. by destruct ev.
Qed.

(** X16: one run of the handler on a live namespace makes at most four
    calls of the cluster client, and exactly four when it returns nil: the
    read of the secret, its update or its create, the read of the service
    account and its update. *)
Theorem handler_makes_at_most_four_calls cfg ns w out evs w' :
  GetDeletionTimestamp ns = None ->
  runs (handler cfg ns) w out evs w' ->
  countRequests evs <= 4 /\
  (out = Ret None -> countRequests evs = 4).
Proof.
  intros Hd Hrun. apply handler_cases in Hrun; [|done].
  destruct Hrun as [msg fev Hreg|s e ce fev Hreg|s e out idev fev Hreg Hid
                   |s ue out idev fev Hreg Hid].
  - rewrite countRequests_registry by done. split; [lia|discriminate].
  - rewrite countRequests_app, (countRequests_registry fev) by done. cbn.
    split; [lia|discriminate].
  - destruct Hid as [e'|refs ue' Hl]; unfold identityEvents;
      rewrite !countRequests_app, (countRequests_registry fev) by done;
      cbn [countRequests clusterRequest errNeq app Nat.add];
      split; first [lia|reflexivity|discriminate].
  - destruct Hid as [e'|refs ue' Hl]; unfold identityEvents, updateLog;
      rewrite !countRequests_app, (countRequests_registry fev) by done;
      destruct ue; cbn [countRequests clusterRequest errNeq app Nat.add];
      split; first [lia|reflexivity|discriminate].
Qed.

Lemma handler_makes_at_most_four_calls_witness :
  let r := handler exampleConfig liveNamespace (exampleWorld [] [okReply] []) in
  countRequests (trace r.2) <= 4 /\
  (r.1 = Ret None -> countRequests (trace r.2) = 4).
Proof.
  intros r.
  apply (handler_makes_at_most_four_calls exampleConfig liveNamespace
           (exampleWorld [] [okReply] []) r.1 (trace r.2) r.2).
  - reflexivity.
  - split; [apply surjective_pairing|vm_compute; reflexivity].
Defined.
